(** * import-lcov: the coverage aggregation of [src/extension.ts]

    A shallow embedding of the three closures of [activate] that carry the
    data transformation of the extension:

    - [collectRunData] (lines 26-98): reads and parses every report file,
      resolves each section to a file identity and publishes one
      [FileCoverage] per section;
    - [loadDetailedCoverage] (lines 116-180): expands one section into
      statement and declaration records, merging branch records per line and
      demangling function names lazily;
    - the [demangle] variable of [createCoverageProfile] (lines 111-114),
      the cache shared by every call of [loadDetailedCoverage].

    Numbers that count (hits, instrumented items) are [N]; line numbers as
    the parser records them are [positive] (1-based), and a position is the
    [N] one below.  Strings are [string]. *)

From Stdlib Require Import String Ascii NArith PArith List Bool Lia Permutation
  Sorted.
From stdpp Require Import base option gmap.
From stdpp Require strings.
Import ListNotations.

Open Scope string_scope.
Open Scope list_scope.

(** ** The parser's output ([@friedemannsommer/lcov-parser]) *)

Module LineEntry.
Record t := mk { line : positive; hit : N }.
End LineEntry.

Module BranchEntry.
Record t := mk { line : positive; branch : string; hit : N }.
End BranchEntry.

Module FunctionEntry.
Record t := mk { name : string; line : positive; hit : N }.
End FunctionEntry.

Module Summary.
Record t (A : Type) := mk { instrumented : N; hit : N; details : list A }.
Arguments mk {A} _ _ _.
Arguments instrumented {A} _.
Arguments hit {A} _.
Arguments details {A} _.
End Summary.

Module SectionSummary.
Record t := mk {
    path : string;
    lines : Summary.t LineEntry.t;
    branches : Summary.t BranchEntry.t;
    functions : Summary.t FunctionEntry.t
  }.
End SectionSummary.

(** ** The host's value classes ([vscode])

    The constructors of the host are data constructors here.  A workspace
    folder is known by the file-system path of its uri. *)

Module vscode.
Record Position := mkPosition { line : N; character : N }.

Record BranchCoverage := mkBranchCoverage {
    executed : N;
    location : Position;
    label : string
  }.

Inductive FileCoverageDetail :=
  | StatementCoverage (executed : N) (location : Position)
                      (branches : list BranchCoverage)
  | DeclarationCoverage (name : string) (executed : N) (location : Position).

Record TestCoverageCount := mkTestCoverageCount { covered : N; total : N }.

Record WorkspaceFolder := mkWorkspaceFolder { fsPath : string }.

Inductive Uri :=
  | Uri_joinPath (base : WorkspaceFolder) (pathSegment : string)
  | Uri_file (path : string).

Record FileCoverage := mkFileCoverage {
    uri : Uri;
    statementCoverage : TestCoverageCount;
    branchCoverage : TestCoverageCount;
    declarationCoverage : TestCoverageCount
  }.
End vscode.

(** ** Strings as the source uses them *)

(** [s.startsWith(p)] *)
Fixpoint startsWith (s p : string) {struct p} : bool :=
  match p, s with
  | EmptyString, _ => true
  | String c p', String d s' => if Ascii.eqb c d then startsWith s' p' else false
  | String _ _, EmptyString => false
  end.

(** [s.substring(start)]: the characters from [start] on, nothing when
    [start] is past the end. *)
Fixpoint substring (s : string) (start : nat) {struct start} : string :=
  match start, s with
  | O, _ => s
  | S n, String _ s' => substring s' n
  | S _, EmptyString => EmptyString
  end.

(** ** Path resolution (lines 59-77 of [collectRunData])

    The loop over the workspace folders with its [break]: [resolve_path]
    is the value of [path] after the loop, [None] when no folder was
    taken. *)

Fixpoint resolve_path (workspaceFolders : list vscode.WorkspaceFolder)
    (section_path : string) : option vscode.Uri :=
  match workspaceFolders with
  | [] => None
  | workspaceFolder :: others =>
      let workspacePath := vscode.fsPath workspaceFolder in
      if startsWith section_path workspacePath
      then Some (vscode.Uri_joinPath workspaceFolder
                   (substring section_path (String.length workspacePath + 1)))
      else resolve_path others section_path
  end.

(** [path ?? vscode.Uri.file(section.path)] *)
Definition section_uri (workspaceFolders : list vscode.WorkspaceFolder)
    (section : SectionSummary.t) : vscode.Uri :=
  match resolve_path workspaceFolders (SectionSummary.path section) with
  | Some path => path
  | None => vscode.Uri_file (SectionSummary.path section)
  end.

(** ** Summaries (lines 76-90): [new vscode.FileCoverage(...)] *)

Definition fileCoverage (workspaceFolders : list vscode.WorkspaceFolder)
    (section : SectionSummary.t) : vscode.FileCoverage :=
  vscode.mkFileCoverage
    (section_uri workspaceFolders section)
    (vscode.mkTestCoverageCount
       (Summary.hit (SectionSummary.lines section))
       (Summary.instrumented (SectionSummary.lines section)))
    (vscode.mkTestCoverageCount
       (Summary.hit (SectionSummary.branches section))
       (Summary.instrumented (SectionSummary.branches section)))
    (vscode.mkTestCoverageCount
       (Summary.hit (SectionSummary.functions section))
       (Summary.instrumented (SectionSummary.functions section))).

(** ** Failures

    What a rejected promise or a [throw] carries: the [TypeError] of the
    language itself, or the reason an external collaborator (file system,
    parser, demangler loader) rejects with. *)

Inductive js_error :=
| TypeError
| Reason (message : string).

(** ** The batch (lines 45-97 of [collectRunData])

    One report file as the batch meets it: how [readFile] settles for it and
    what [token.isCancellationRequested] answers at lines 49 and 55 of its
    task.  The parser is a parameter. *)

Record report := mkReport {
  readFile : js_error + string;
  cancelled_after_read : bool;
  cancelled_after_parse : bool
}.

(** How the promise of one task settles, with what the task has handed to
    [testRunData.set] and [run.addCoverage] by then (lines 92-93; the two are
    called together, so one list records both). *)
Record task_result := mkTaskResult {
  published : list (vscode.FileCoverage * SectionSummary.t);
  rejection : option js_error
}.

Inductive settlement :=
| Pending
| Resolved
| Rejected (e : js_error).

Record run_result := mkRunResult {
  addCoverage : list (vscode.FileCoverage * SectionSummary.t);
  settled : settlement;      (* the promise [collectRunData] returns *)
  ended : bool               (* whether [run.end()] at line 97 was reached *)
}.

Section Batch.
Variable parseLcov : string -> js_error + list SectionSummary.t.
Variable workspaceFolders : list vscode.WorkspaceFolder.

(** The async arrow function of lines 45-95.  Between two [await]s it runs
    to completion, and everything it publishes it publishes after the last
    one, so its whole effect is this one result. *)
Definition task (item : report) : task_result :=
  match readFile item with
  | inl e => mkTaskResult [] (Some e)
  | inr contents =>
      if cancelled_after_read item then mkTaskResult [] None
      else match parseLcov contents with
           | inl e => mkTaskResult [] (Some e)
           | inr sections =>
               if cancelled_after_parse item then mkTaskResult [] None
               else mkTaskResult
                      (List.map (fun section =>
                              (fileCoverage workspaceFolders section, section))
                           sections)
                      None
           end
  end.

(** The tasks that have finished, in the order they finish: [completion]
    lists indices into the items. *)
Definition finished (items : list report) (completion : list nat)
    : list task_result :=
  flat_map (fun i => match nth_error items i with
                     | Some item => [task item]
                     | None => []
                     end) completion.

(** [Promise.all]: rejects with the first rejection, resolves once every
    task has resolved; the other tasks are not stopped by a rejection. *)
Fixpoint first_rejection (results : list task_result) : option js_error :=
  match results with
  | [] => None
  | r :: rest => match rejection r with
                 | Some e => Some e
                 | None => first_rejection rest
                 end
  end.

Definition all_finished (items : list report) (completion : list nat) : bool :=
  forallb (fun i => existsb (Nat.eqb i) completion) (seq 0 (length items)).

Definition promise_all (items : list report) (completion : list nat)
    : settlement :=
  match first_rejection (finished items completion) with
  | Some e => Rejected e
  | None => if all_finished items completion then Resolved else Pending
  end.

(** [await Promise.all(...); run.end();] *)
Definition collectRunData (items : list report) (completion : list nat)
    : run_result :=
  let joined := promise_all items completion in
  mkRunResult
    (flat_map published (finished items completion))
    joined
    (match joined with Resolved => true | _ => false end).
End Batch.

(** ** The mangled-symbol test (line 159): [/^_{1,3}Z/.test(name)]

    The pattern is anchored at the start of the string: one, two or three
    underscores, then [Z]. *)

Definition regex_mangled (name : string) : bool :=
  match name with
  | String "_" (String "Z" _) => true
  | String "_" (String "_" (String "Z" _)) => true
  | String "_" (String "_" (String "_" (String "Z" _))) => true
  | _ => false
  end.

(** The same test in the words of the specification: the name has between
    one and three leading underscores, and the character after them is [Z]. *)

Fixpoint leading_underscores (name : string) : nat :=
  match name with
  | String "_" rest => S (leading_underscores rest)
  | _ => O
  end.

Definition spec_mangled (name : string) : bool :=
  let n := leading_underscores name in
  (1 <=? n)%nat && (n <=? 3)%nat &&
  match String.get n name with
  | Some "Z"%char => true
  | _ => false
  end.

(** ** Plain objects used as dictionaries (lines 124-140)

    [branches] is an object literal [{}] indexed by the branch identifier.
    Its own properties are kept in creation order.  A read [branches[k]]
    that finds no own property goes on to [Object.prototype], so the model
    keeps the names that object defines (ECMA-262, with Annex B), and
    whether it has acquired a property [executed]: line 137 can write one
    there, see [merge_branch]. *)

Abbreviation object := (list (string * vscode.BranchCoverage)).

Definition object_prototype_functions : list string :=
  [ "constructor"; "hasOwnProperty"; "isPrototypeOf"; "propertyIsEnumerable";
    "toLocaleString"; "toString"; "valueOf";
    "__defineGetter__"; "__defineSetter__"; "__lookupGetter__";
    "__lookupSetter__" ].

Fixpoint own_property (o : object) (k : string) : option vscode.BranchCoverage :=
  match o with
  | [] => None
  | (k', v) :: rest => if String.eqb k' k then Some v else own_property rest k
  end.

(** What the read [branches[k]] evaluates to. *)
Inductive property_value :=
| Own (b : vscode.BranchCoverage)   (* an own property: a BranchCoverage *)
| InheritedFunction                 (* a method of Object.prototype *)
| InheritedPrototype                (* [__proto__]: Object.prototype itself *)
| InheritedNumber                   (* Object.prototype.executed, a NaN *)
| Undefined.

Definition get (prototype_executed : bool) (o : object) (k : string)
    : property_value :=
  match own_property o k with
  | Some b => Own b
  | None =>
      if String.eqb k "__proto__" then InheritedPrototype
      else if existsb (String.eqb k) object_prototype_functions
      then InheritedFunction
      else if String.eqb k "executed" && prototype_executed
      then InheritedNumber
      else Undefined
  end.

(** Assignment to an own property: in place when the property exists, a new
    last property otherwise. *)
Fixpoint set (o : object) (k : string) (v : vscode.BranchCoverage) : object :=
  match o with
  | [] => [(k, v)]
  | (k', v') :: rest =>
      if String.eqb k' k then (k', v) :: rest else (k', v') :: set rest k v
  end.

(** [Object.values(o)]: the own properties whose name is an array index
    (the canonical decimal form of an integer below 2^32 - 1) in ascending
    numeric order, then the others in creation order. *)

Definition digit (c : ascii) : option N :=
  let n := N_of_ascii c in
  if (48 <=? n)%N && (n <=? 57)%N then Some (n - 48)%N else None.

Fixpoint decimal (s : string) (acc : N) : option N :=
  match s with
  | EmptyString => Some acc
  | String c rest =>
      match digit c with
      | Some d => decimal rest (10 * acc + d)%N
      | None => None
      end
  end.

Definition array_index (k : string) : option N :=
  match k with
  | EmptyString => None
  | String "0" EmptyString => Some 0%N
  | String "0" _ => None
  | _ => match decimal k 0 with
         | Some n => if (n <? 4294967295)%N then Some n else None
         | None => None
         end
  end.

Fixpoint insert_index (i : N) (v : vscode.BranchCoverage)
    (sorted : list (N * vscode.BranchCoverage)) : list (N * vscode.BranchCoverage) :=
  match sorted with
  | [] => [(i, v)]
  | (j, w) :: rest =>
      if (i <=? j)%N then (i, v) :: (j, w) :: rest
      else (j, w) :: insert_index i v rest
  end.

Fixpoint index_properties (o : object) : list (N * vscode.BranchCoverage) :=
  match o with
  | [] => []
  | (k, v) :: rest =>
      match array_index k with
      | Some i => insert_index i v (index_properties rest)
      | None => index_properties rest
      end
  end.

Fixpoint named_properties (o : object) : list vscode.BranchCoverage :=
  match o with
  | [] => []
  | (k, v) :: rest =>
      match array_index k with
      | Some _ => named_properties rest
      | None => v :: named_properties rest
      end
  end.

Definition Object_values (o : object) : list vscode.BranchCoverage :=
  List.map snd (index_properties o) ++ named_properties o.

(** ** Merging branch records (lines 129-140)

    The body of the loop for one branch record, on the object [branches] of
    its line.  [polluted] says whether [Object.prototype] has an [executed]
    property; the first component of the result is that fact afterwards.

    Line 132, [branches[k] ??= new BranchCoverage(0, ...)], assigns only
    when the read is [undefined] or [null]; an inherited value is neither.
    Line 137, [branches[k].executed += hit], then works on whatever the read
    gives: on the own record it accumulates; on an inherited function it
    leaves a NaN on that function; through [__proto__] it leaves the NaN on
    [Object.prototype] itself; on the number so inherited under the name
    [executed] the assignment is the TypeError of module (strict) code. *)

Definition new_branch (b : BranchEntry.t) : vscode.BranchCoverage :=
  vscode.mkBranchCoverage 0
    (vscode.mkPosition (Pos.pred_N (BranchEntry.line b)) 0)
    (BranchEntry.branch b).

Definition add_executed (c : vscode.BranchCoverage) (hit : N)
    : vscode.BranchCoverage :=
  vscode.mkBranchCoverage (vscode.executed c + hit)
    (vscode.location c) (vscode.label c).

Definition merge_branch (polluted : bool) (branches : object)
    (b : BranchEntry.t) : bool * (js_error + object) :=
  let k := BranchEntry.branch b in
  let branches :=
    match get polluted branches k with
    | Undefined => set branches k (new_branch b)
    | _ => branches
    end in
  match get polluted branches k with
  | Own c => (polluted, inr (set branches k (add_executed c (BranchEntry.hit b))))
  | InheritedFunction => (polluted, inr branches)
  | InheritedPrototype => (true, inr branches)
  | InheritedNumber => (polluted, inl TypeError)
  | Undefined => (polluted, inl TypeError)
  end.

(** The loop itself, on the [Map] from line numbers to objects. *)
Fixpoint branches_loop (polluted : bool) (branchesByLine : gmap positive object)
    (details : list BranchEntry.t)
    : bool * (js_error + gmap positive object) :=
  match details with
  | [] => (polluted, inr branchesByLine)
  | branch :: rest =>
      let branches :=
        default [] (branchesByLine !! BranchEntry.line branch) in
      match merge_branch polluted branches branch with
      | (polluted', inr branches') =>
          branches_loop polluted'
            (<[BranchEntry.line branch := branches']> branchesByLine) rest
      | (polluted', inl e) => (polluted', inl e)
      end
  end.

(** ** Statement records (lines 142-150) *)

Definition statement (branchesByLine : gmap positive object)
    (line : LineEntry.t) : vscode.FileCoverageDetail :=
  vscode.StatementCoverage
    (LineEntry.hit line)
    (vscode.mkPosition (Pos.pred_N (LineEntry.line line)) 0)
    (Object_values (default [] (branchesByLine !! LineEntry.line line))).

Definition lines_loop (branchesByLine : gmap positive object)
    (details : list LineEntry.t) : list vscode.FileCoverageDetail :=
  List.map (statement branchesByLine) details.

(** ** The demangler cache (lines 111-114 and 159-168)

    [demangle] is [undefined], the promise of a load, or the loaded function.
    A promise is known by the number of the call of [loadDemangle] that made
    it; [loads] counts those calls.  The state one call of
    [loadDetailedCoverage] shares with the others also holds the pollution
    flag of [Object.prototype]. *)

Definition demangler := string -> string.

Inductive slot :=
| SlotUndefined
| SlotPromise (p : nat)
| SlotFunction (f : demangler).

Record world := mkWorld {
  demangle : slot;
  loads : nat;
  prototype_executed : bool
}.

(** The locals of one call: the [details] array, and (for the proofs only)
    the trace of the calls [demangle(name)] it has made, argument and
    result. *)
Record frame := mkFrame {
  details : list vscode.FileCoverageDetail;
  calls : list (string * string)
}.

(** A call is suspended at an [await] of line 162 or 164, inside the
    iteration for [fn], or it is over. *)
Inductive thread :=
| Awaiting (p : nat) (fr : frame) (fn : FunctionEntry.t)
           (rest : list FunctionEntry.t)
| Returned (fr : frame)
| Thrown (e : js_error).

Definition declaration (name : string) (fn : FunctionEntry.t)
    : vscode.FileCoverageDetail :=
  vscode.DeclarationCoverage name (FunctionEntry.hit fn)
    (vscode.mkPosition (Pos.pred_N (FunctionEntry.line fn)) 0).

(** Lines 167-176 for a name that is demangled by [f]. *)
Definition push_demangled (f : demangler) (fr : frame) (fn : FunctionEntry.t)
    : frame :=
  mkFrame (details fr ++ [declaration (f (FunctionEntry.name fn)) fn])
          (calls fr ++ [(FunctionEntry.name fn, f (FunctionEntry.name fn))]).

(** Lines 170-176 for a name used as it is. *)
Definition push_verbatim (fr : frame) (fn : FunctionEntry.t) : frame :=
  mkFrame (details fr ++ [declaration (FunctionEntry.name fn) fn]) (calls fr).

(** The loop of lines 152-177, run until it ends or reaches an [await]. *)
Fixpoint functions_loop (w : world) (fr : frame) (fns : list FunctionEntry.t)
    : world * thread :=
  match fns with
  | [] => (w, Returned fr)
  | fn :: rest =>
      if (String.length (FunctionEntry.name fn) =? 0)%nat
      then functions_loop w fr rest
      else if regex_mangled (FunctionEntry.name fn)
      then match demangle w with
           | SlotUndefined =>
               (mkWorld (SlotPromise (loads w)) (S (loads w))
                        (prototype_executed w),
                Awaiting (loads w) fr fn rest)
           | SlotPromise p => (w, Awaiting p fr fn rest)
           | SlotFunction f => functions_loop w (push_demangled f fr fn) rest
           end
      else functions_loop w (push_verbatim fr fn) rest
  end.

(** A call from its start to its first [await], or to its end.
    [testRunData.get(fileCoverage)] is the argument: [None] when the side
    table has no section for the summary. *)
Definition start (w : world) (section : option SectionSummary.t)
    : world * thread :=
  match section with
  | None => (w, Returned (mkFrame [] []))
  | Some section =>
      match branches_loop (prototype_executed w) ∅
              (Summary.details (SectionSummary.branches section)) with
      | (polluted, inl e) =>
          (mkWorld (demangle w) (loads w) polluted, Thrown e)
      | (polluted, inr branchesByLine) =>
          functions_loop
            (mkWorld (demangle w) (loads w) polluted)
            (mkFrame
               (lines_loop branchesByLine
                  (Summary.details (SectionSummary.lines section)))
               [])
            (Summary.details (SectionSummary.functions section))
      end
  end.

(** ** Calls of [loadDetailedCoverage]

    [loadDemangle] (of [./demangle], not shown) is a parameter: its [p]-th
    call returns a promise that is fulfilled with a demangler or rejected.
    The demangler itself is a total function on strings. *)

Definition calls_of (t : thread) : list (string * string) :=
  match t with
  | Awaiting _ fr _ _ => calls fr
  | Returned fr => calls fr
  | Thrown _ => []
  end.

Record session := mkSession {
  shared : world;
  threads : list thread
}.

Definition initial (polluted : bool) : session :=
  mkSession (mkWorld SlotUndefined 0 polluted) [].

Section Demangler.
Variable loadDemangle : nat -> js_error + demangler.

(** The continuation of an [await]: [demangle = await demangle] assigns the
    function the promise is fulfilled with, line 167 calls it and the loop
    goes on; a rejected promise makes the [await] throw, and the call ends
    there with [demangle] left as it was. *)
Definition resume (w : world) (t : thread) : world * thread :=
  match t with
  | Awaiting p fr fn rest =>
      match loadDemangle p with
      | inr f =>
          functions_loop
            (mkWorld (SlotFunction f) (loads w) (prototype_executed w))
            (push_demangled f fr fn) rest
      | inl e => (w, Thrown e)
      end
  | _ => (w, t)
  end.

(** One call with nothing else running in between: it starts, and where it
    awaits, the promise settles and it goes on. *)
Definition loadDetailedCoverage (w : world) (section : option SectionSummary.t)
    : world * thread :=
  let (w', t) := start w section in resume w' t.

(** Calls that overlap.  Between two [await]s a call runs alone, so the
    session moves in two ways: a new call runs to its first [await] (or to
    its end), or the [i]-th call, suspended, takes up again (a call that is
    over stays as it is). *)
Definition call (s : session) (section : option SectionSummary.t) : session :=
  let (w, t) := start (shared s) section in
  mkSession w (threads s ++ [t]).

Definition take_up (s : session) (i : nat) : session :=
  match threads s !! i with
  | Some t =>
      let (w, t') := resume (shared s) t in
      mkSession w (<[i := t']> (threads s))
  | None => s
  end.

Inductive step : session -> session -> Prop :=
| step_call (s : session) (section : option SectionSummary.t) :
    step s (call s section)
| step_take_up (s : session) (i : nat) :
    step s (take_up s i).

(** The function a call finds in the cache or gets from the promise there. *)
Definition resolves (w : world) : option demangler :=
  match demangle w with
  | SlotFunction f => Some f
  | SlotPromise p => match loadDemangle p with inr f => Some f | inl _ => None end
  | SlotUndefined =>
      match loadDemangle (loads w) with inr f => Some f | inl _ => None end
  end.
End Demangler.

(** ** What the statements below speak of *)

Definition nonempty (fn : FunctionEntry.t) : bool :=
  negb (String.length (FunctionEntry.name fn) =? 0)%nat.

(** Some function entry makes the call reach line 160. *)
Definition needs_demangler (fns : list FunctionEntry.t) : bool :=
  existsb (fun fn => nonempty fn && regex_mangled (FunctionEntry.name fn)) fns.

(** The name a function entry is shown under, given the demangler. *)
Definition display (f : demangler) (name : string) : string :=
  if spec_mangled name then f name else name.

Definition declarations (f : demangler) (fns : list FunctionEntry.t)
    : list vscode.FileCoverageDetail :=
  List.map (fun fn => declaration (display f (FunctionEntry.name fn)) fn)
      (List.filter nonempty fns).

(** The demangler calls the entries ask for: one per entry with a mangled
    name, in order. *)
Definition demangled (f : demangler) (fns : list FunctionEntry.t)
    : list (string * string) :=
  List.map (fun fn => (FunctionEntry.name fn, f (FunctionEntry.name fn)))
      (List.filter (fun fn => spec_mangled (FunctionEntry.name fn)) fns).

Definition is_statement (d : vscode.FileCoverageDetail) : bool :=
  match d with vscode.StatementCoverage _ _ _ => true | _ => false end.

Definition is_declaration (d : vscode.FileCoverageDetail) : bool :=
  match d with vscode.DeclarationCoverage _ _ _ => true | _ => false end.

(** The branch loop goes through without a TypeError. *)
Definition branches_pass (polluted : bool) (bs : list BranchEntry.t) : bool :=
  match snd (branches_loop polluted ∅ bs) with
  | inr _ => true
  | inl _ => false
  end.

Definition on_line (line : positive) (b : BranchEntry.t) : bool :=
  Pos.eqb (BranchEntry.line b) line.

(** What one branch record does to the own properties of its object. *)
Definition own_merge (branches : object) (b : BranchEntry.t) : object :=
  match snd (merge_branch false branches b) with
  | inr branches' => branches'
  | inl _ => branches
  end.

(** The object of a line: the records of that line merged in their order. *)
Definition branch_group (bs : list BranchEntry.t) (line : positive) : object :=
  fold_left own_merge (List.filter (on_line line) bs) [].

(** The sum of the hit counts of the records with a (line, identifier)
    pair, from 0. *)
Definition hits (bs : list BranchEntry.t) (line : positive) (k : string) : N :=
  fold_left N.add
    (List.map BranchEntry.hit
       (List.filter (fun b => on_line line b && String.eqb (BranchEntry.branch b) k)
          bs))
    0%N.

(** The distinct identifiers observed on a line, in order of first
    appearance. *)
Fixpoint distinct (ks : list string) : list string :=
  match ks with
  | [] => []
  | k :: rest => k :: List.filter (fun k' => negb (String.eqb k k')) (distinct rest)
  end.

Definition identifiers (bs : list BranchEntry.t) (line : positive) : list string :=
  distinct (List.map BranchEntry.branch (List.filter (on_line line) bs)).

(** A name a fresh object literal already answers to. *)
Definition inherited (k : string) : bool :=
  String.eqb k "__proto__" || existsb (String.eqb k) object_prototype_functions.

(** A section without the branch records whose line has no line record. *)
Definition has_line (lines : list LineEntry.t) (b : BranchEntry.t) : bool :=
  existsb (fun l => Pos.eqb (LineEntry.line l) (BranchEntry.line b)) lines.

Definition without_orphans (s : SectionSummary.t) : SectionSummary.t :=
  SectionSummary.mk
    (SectionSummary.path s)
    (SectionSummary.lines s)
    (Summary.mk
       (Summary.instrumented (SectionSummary.branches s))
       (Summary.hit (SectionSummary.branches s))
       (List.filter (has_line (Summary.details (SectionSummary.lines s)))
          (Summary.details (SectionSummary.branches s))))
    (SectionSummary.functions s).

(** Path resolution in the words of the specification: a folder is taken
    when its path, followed immediately by a path separator, starts the
    section path; the identity joins the folder with what follows the
    separator. *)

Definition segment_prefix (root section_path : string) : bool :=
  startsWith section_path (root ++ "/").

Fixpoint spec_resolve_path (workspaceFolders : list vscode.WorkspaceFolder)
    (section_path : string) : option vscode.Uri :=
  match workspaceFolders with
  | [] => None
  | workspaceFolder :: others =>
      let root := vscode.fsPath workspaceFolder in
      if segment_prefix root section_path
      then Some (vscode.Uri_joinPath workspaceFolder
                   (substring section_path (String.length (root ++ "/"))))
      else spec_resolve_path others section_path
  end.

Definition spec_section_uri (workspaceFolders : list vscode.WorkspaceFolder)
    (section : SectionSummary.t) : vscode.Uri :=
  match spec_resolve_path workspaceFolders (SectionSummary.path section) with
  | Some path => path
  | None => vscode.Uri_file (SectionSummary.path section)
  end.

(** A section that carries only a path. *)
Definition section_at (path : string) : SectionSummary.t :=
  SectionSummary.mk path (Summary.mk 0 0 []) (Summary.mk 0 0 [])
    (Summary.mk 0 0 []).

(** What the batch is expected to publish for a report file: the sections
    the parser makes of it, none when the read or the parse fails. *)
Definition parsed (parseLcov : string -> js_error + list SectionSummary.t)
    (item : report) : list SectionSummary.t :=
  match readFile item with
  | inr contents =>
      match parseLcov contents with
      | inr sections => sections
      | inl _ => []
      end
  | inl _ => []
  end.

Definition failure (parseLcov : string -> js_error + list SectionSummary.t)
    (item : report) : option js_error :=
  match readFile item with
  | inr contents =>
      match parseLcov contents with
      | inr _ => None
      | inl e => Some e
      end
  | inl e => Some e
  end.

Definition not_cancelled (item : report) : bool :=
  negb (cancelled_after_read item || cancelled_after_parse item).

Definition summaries (workspaceFolders : list vscode.WorkspaceFolder)
    (sections : list SectionSummary.t)
    : list (vscode.FileCoverage * SectionSummary.t) :=
  List.map (fun section => (fileCoverage workspaceFolders section, section))
    sections.

(** Scenario 4 of the specification: two report files, of which the parser
    accepts the first, with one section, and rejects the second. *)
Definition scenario_4_parser (contents : string)
    : js_error + list SectionSummary.t :=
  if String.eqb contents "SF:/ws/a/x.c"
  then inr [section_at "/ws/a/x.c"]
  else inl (Reason "unexpected end of input").

Definition scenario_4_items : list report :=
  [ mkReport (inr "SF:/ws/a/x.c") false false;
    mkReport (inr "garbage") false false ].

(** The names the declaration records of an output carry, in order. *)
Definition declared_names (ds : list vscode.FileCoverageDetail) : list string :=
  flat_map (fun d => match d with
                     | vscode.DeclarationCoverage name _ _ => [name]
                     | _ => []
                     end) ds.

(** The statement record a line entry is expected to give, with the merged
    branch records of its line. *)
Definition expected_statement (bs : list BranchEntry.t) (l : LineEntry.t)
    : vscode.FileCoverageDetail :=
  vscode.StatementCoverage (LineEntry.hit l)
    (vscode.mkPosition (Pos.pred_N (LineEntry.line l)) 0)
    (Object_values (branch_group bs (LineEntry.line l))).

(** The cache after a call that went through the function entries [fns]. *)
Definition world_after (w : world) (polluted : bool) (f : demangler)
    (fns : list FunctionEntry.t) : world :=
  if needs_demangler fns
  then mkWorld (SlotFunction f)
         (match demangle w with SlotUndefined => S (loads w) | _ => loads w end)
         polluted
  else mkWorld (demangle w) (loads w) polluted.

(** Scenarios 1 to 3 of the specification in one section: one line with
    three branch records, and a mangled, an empty and a plain function
    name. *)
Definition scenario_section : SectionSummary.t :=
  SectionSummary.mk "/ws/b/src/x.c"
    (Summary.mk 1 1 [LineEntry.mk 10 3])
    (Summary.mk 2 1 [BranchEntry.mk 10 "0" 1; BranchEntry.mk 10 "0" 2;
                     BranchEntry.mk 10 "1" 0])
    (Summary.mk 2 2 [FunctionEntry.mk "_Z3fooi" 5 1; FunctionEntry.mk "" 5 1;
                     FunctionEntry.mk "main" 7 2]).

Definition scenario_demangler : demangler :=
  fun mangled => if String.eqb mangled "_Z3fooi" then "foo(int)" else mangled.

Definition scenario_loader (p : nat) : js_error + demangler :=
  inr scenario_demangler.

Definition fresh_world : world := mkWorld SlotUndefined 0 false.

(** Two states of the world with the same demangler cache. *)
Definition same_cache (w1 w2 : world) : Prop :=
  demangle w1 = demangle w2 /\ loads w1 = loads w2.

(** A loader whose first load fails and whose later loads would succeed. *)
Definition flaky_loader (p : nat) : js_error + demangler :=
  match p with
  | O => inl (Reason "Cannot find module")
  | S _ => inr scenario_demangler
  end.

(** A section with a branch record on a line that has no line record. *)
Definition orphan_section : SectionSummary.t :=
  SectionSummary.mk "/ws/b/src/x.c"
    (Summary.mk 1 1 [LineEntry.mk 10 3])
    (Summary.mk 2 1 [BranchEntry.mk 10 "0" 1; BranchEntry.mk 11 "0" 2])
    (Summary.mk 1 1 [FunctionEntry.mk "_Z3fooi" 5 1]).

(** What holds of the cache throughout a session: no load before the first
    need, one load from then on, and in the cache the promise of that load
    or the function it was fulfilled with. *)
Definition slot_ok (loadDemangle : nat -> js_error + demangler) (w : world)
    : Prop :=
  match demangle w with
  | SlotUndefined => loads w = 0%nat
  | SlotPromise p => p = 0%nat /\ loads w = 1%nat
  | SlotFunction f => loadDemangle 0%nat = inr f /\ loads w = 1%nat
  end.

(** A result of the demangler that the first load's function gives. *)
Definition from_first_load (loadDemangle : nat -> js_error + demangler)
    (c : string * string) : Prop :=
  exists f, loadDemangle 0%nat = inr f /\ snd c = f (fst c).

Definition thread_ok (loadDemangle : nat -> js_error + demangler) (w : world)
    (t : thread) : Prop :=
  match t with
  | Awaiting p _ _ _ => p = 0%nat /\ loads w = 1%nat
  | _ => True
  end
  /\ Forall (from_first_load loadDemangle) (calls_of t).

Definition session_ok (loadDemangle : nat -> js_error + demangler) (s : session)
    : Prop :=
  slot_ok loadDemangle (shared s)
  /\ Forall (thread_ok loadDemangle (shared s)) (threads s).

(** Two overlapping calls on the scenario section, both taken up after the
    load. *)
Definition scenario_session : session :=
  take_up scenario_loader
    (take_up scenario_loader
       (call (call (initial false) (Some scenario_section))
          (Some scenario_section))
       0)
    1.

(** The count an object holds under a name, 0 when it has no such own
    property. *)
Definition executed_of (o : object) (k : string) : N :=
  match own_property o k with
  | Some c => vscode.executed c
  | None => 0%N
  end.

Definition has_key (o : object) (k : string) : bool :=
  match own_property o k with
  | Some _ => true
  | None => false
  end.

(** Every own property is a branch record of the line, labelled with its
    own name. *)
Definition well_placed (line : positive) (o : object) : Prop :=
  forall k c, In (k, c) o ->
    vscode.label c = k
    /\ vscode.location c = vscode.mkPosition (Pos.pred_N line) 0.

(** A section of one line with two branch identifiers, one of them a name
    every object inherits. *)
Definition constructor_section : SectionSummary.t :=
  SectionSummary.mk "/ws/b/src/x.c"
    (Summary.mk 1 1 [LineEntry.mk 10 3])
    (Summary.mk 2 2 [BranchEntry.mk 10 "constructor" 1; BranchEntry.mk 10 "0" 2])
    (Summary.mk 0 0 []).

(** The folders of the example for the path resolution, and those of
    scenario 4. *)
Definition partial_segment_folders : list vscode.WorkspaceFolder :=
  [vscode.mkWorkspaceFolder "/ws/a"; vscode.mkWorkspaceFolder "/ws/ab"].

Definition scenario_4_folders : list vscode.WorkspaceFolder :=
  [vscode.mkWorkspaceFolder "/ws/a"].

(** Case analysis on a character, closing the cases that compute. *)
Ltac by_character c :=
  destruct c as [[|] [|] [|] [|] [|] [|] [|] [|]]; try reflexivity.

(** A section whose branch identifiers reach [Object.prototype]: the first
    through [__proto__], the second under the name the first has left
    there. *)
Definition polluting_section : SectionSummary.t :=
  SectionSummary.mk "/ws/b/src/x.c"
    (Summary.mk 1 1 [LineEntry.mk 10 3])
    (Summary.mk 2 2 [BranchEntry.mk 10 "__proto__" 1;
                     BranchEntry.mk 10 "executed" 1])
    (Summary.mk 0 0 []).

(** ** The items of a run (lines 31-42 of [collectRunData])

    A test item is an object: the [Set] of line 32 tells items apart by
    their identity, here the reference [ref].  The item of a report file
    also carries the file's uri. *)

Record TestItem := mkTestItem {
  ref : nat;
  item_uri : string
}.

Definition same_item (a b : TestItem) : bool := Nat.eqb (ref a) (ref b).

(** [items.add(item)]: nothing when the item is in the set, a new last
    element otherwise. *)
Definition Set_add (items : list TestItem) (item : TestItem) : list TestItem :=
  if existsb (same_item item) items then items else items ++ [item].

(** [items.delete(item)] *)
Definition Set_delete (items : list TestItem) (item : TestItem) : list TestItem :=
  List.filter (fun other => negb (same_item item other)) items.

(** [new Set(iterable)], of nothing when the iterable is [undefined]. *)
Definition new_Set (iterable : option (list TestItem)) : list TestItem :=
  fold_left Set_add (default [] iterable) [].

(** Lines 32-42: the set of the included items, or of all the items of the
    controller when that set is empty, without the excluded ones. *)
Definition run_items (include exclude : option (list TestItem))
    (controller_items : list TestItem) : list TestItem :=
  let items := new_Set include in
  let items :=
    if (length items =? 0)%nat
    then fold_left Set_add controller_items items
    else items in
  fold_left Set_delete (default [] exclude) items.

(** ** Refreshing the tests (lines 190-210 of [refreshTests])

    [files.flat().sort()]: a sort without a comparator orders its elements
    by their strings, code unit by code unit, and is stable.  A uri is known
    by its string. *)

Fixpoint sort_insert (x : string) (sorted : list string) : list string :=
  match sorted with
  | [] => [x]
  | y :: rest =>
      if String.leb x y then x :: y :: rest else y :: sort_insert x rest
  end.

Fixpoint Array_sort (files : list string) : list string :=
  match files with
  | [] => []
  | x :: rest => sort_insert x (Array_sort rest)
  end.

(** The files of line 199: what [findFiles] finds for each glob, flattened
    and sorted. *)
Definition lcov_files (findFiles : string -> list string)
    (lcovFiles : list string) : list string :=
  Array_sort (concat (List.map findFiles lcovFiles)).

(** Lines 201-207: one new item per file; [next] is the first unused
    reference. *)
Fixpoint createTestItems (next : nat) (files : list string) : list TestItem :=
  match files with
  | [] => []
  | file :: rest => mkTestItem next file :: createTestItems (S next) rest
  end.

(** The items [refreshTests] hands to [collectRunData] at line 210, as that
    function selects them: [include] is the new items, [exclude] is empty.
    [controller.items.replace(items)] has made them the controller's. *)
Definition refresh_run_items (findFiles : string -> list string)
    (lcovFiles : list string) (next : nat) : list TestItem :=
  let items := createTestItems next (lcov_files findFiles lcovFiles) in
  run_items (Some items) (Some []) items.

(** ** The configuration (lines 218-249 of [refreshConfiguration])

    The setting [import-lcov.lcovFiles] is absent, a string, or an array of
    strings.  The state is the current configuration, the globs of the
    watchers created so far (they are pushed to the subscriptions of the
    extension and never disposed by this code) and the number of calls of
    [refreshTests] from here.  [JSON.stringify] is a parameter. *)

Inductive setting :=
| SettingUndefined
| SettingString (glob : string)
| SettingArray (globs : list string).

Record Configuration := mkConfiguration { lcovFiles : list string }.

Record extension := mkExtension {
  configuration : Configuration;
  watchers : list string;
  refreshes : nat
}.

(** Lines 220-226: [get(...) ?? []], and a string made a one-element
    array. *)
Definition setting_globs (s : setting) : list string :=
  match s with
  | SettingUndefined => []
  | SettingString glob => [glob]
  | SettingArray globs => globs
  end.

Section Configuration.
Variable JSON_stringify : Configuration -> string.

Definition refreshConfiguration (st : extension) (s : setting) : extension :=
  let activeConfig := mkConfiguration (setting_globs s) in
  if String.eqb (JSON_stringify activeConfig) (JSON_stringify (configuration st))
  then st
  else mkExtension activeConfig
         (watchers st ++ lcovFiles activeConfig)
         (S (refreshes st)).
End Configuration.

(** The state [activate] starts from (line 23). *)
Definition activated : extension := mkExtension (mkConfiguration []) [] 0.

(** ** A new coverage profile (lines 100-114 of [createCoverageProfile])

    Each call declares a new variable [demangle], [undefined], for the
    [loadDetailedCoverage] of the new profile; the calls of [loadDemangle]
    made so far and the state of [Object.prototype] are what they are. *)
Definition createCoverageProfile (w : world) : world :=
  mkWorld SlotUndefined (loads w) (prototype_executed w).

(** [n] underscores. *)
Fixpoint underscores (n : nat) : string :=
  match n with
  | O => EmptyString
  | S n' => String "_" (underscores n')
  end.

(** Some branch record has the identifier [k]. *)
Definition has_identifier (k : string) (bs : list BranchEntry.t) : bool :=
  existsb (fun b => String.eqb (BranchEntry.branch b) k) bs.

(** The items a run is asked for: the included ones, or all those of the
    controller when none is included. *)
Definition requested (include : option (list TestItem))
    (controller_items : list TestItem) : list TestItem :=
  match default [] include with
  | [] => controller_items
  | item :: others => item :: others
  end.

(** Scenario 4 with the token cancelled before the files are read. *)
Definition cancelled_items : list report :=
  [ mkReport (inr "SF:/ws/a/x.c") true true;
    mkReport (inr "garbage") true true ].

(** A loader that never succeeds, and a section whose function names need
    no demangler. *)
Definition failing_loader (p : nat) : js_error + demangler :=
  inl (Reason "Cannot find module").

Definition plain_section : SectionSummary.t :=
  SectionSummary.mk "/ws/b/src/x.c"
    (Summary.mk 1 1 [LineEntry.mk 10 3])
    (Summary.mk 1 1 [BranchEntry.mk 10 "0" 1])
    (Summary.mk 2 1 [FunctionEntry.mk "main" 7 2; FunctionEntry.mk "" 9 0;
                     FunctionEntry.mk "____Z" 12 0]).

(** A section with the branch identifier [executed]. *)
Definition executed_section : SectionSummary.t :=
  SectionSummary.mk "/ws/b/src/y.c"
    (Summary.mk 1 1 [LineEntry.mk 3 1])
    (Summary.mk 2 1 [BranchEntry.mk 3 "0" 1; BranchEntry.mk 3 "executed" 1])
    (Summary.mk 0 0 []).

(** A stand-in for [JSON.stringify] in the examples: the globs, each closed
    by a line feed. *)
Definition example_stringify (c : Configuration) : string :=
  String.concat "" (List.map (fun glob => String.append glob (String "010" ""))
                      (lcovFiles c)).

(** What two globs find in the examples. *)
Definition example_findFiles (glob : string) : list string :=
  if String.eqb glob "**/*.info" then ["file:///ws/b/cov.info"; "file:///ws/a/cov.info"]
  else if String.eqb glob "lcov/*" then ["file:///ws/a/lcov/x"]
  else [].

(** The Branch Group of a line in the words of the specification: of the
    branch records sharing the line, one record per distinct branch
    identifier, with the hit counts of the repeated identifiers summed, at
    the 0-based position of the line. *)
Definition spec_branch_group (bs : list BranchEntry.t) (line : positive)
    : list vscode.BranchCoverage :=
  List.map
    (fun k => vscode.mkBranchCoverage (hits bs line k)
                (vscode.mkPosition (N.pos line - 1) 0) k)
    (identifiers bs line).

(** A section of one line, with a branch record on that line and, before
    it, a branch record on a line that has no line record. *)
Definition orphan_proto_section : SectionSummary.t :=
  SectionSummary.mk "/ws/b/src/x.c"
    (Summary.mk 1 1 [LineEntry.mk 10 3])
    (Summary.mk 2 2 [BranchEntry.mk 11 "__proto__" 1;
                     BranchEntry.mk 10 "executed" 1])
    (Summary.mk 0 0 []).

(* ================================================================== *)
(** * Path resolution *)

Lemma startsWith_app (s p q : string) :
  startsWith s (p ++ q) = startsWith s p && startsWith (substring s (String.length p)) q.
Proof.
  revert s; induction p as [|c p IH]; intros s.
  - reflexivity.
  - change (String.append (String c p) q) with (String c (String.append p q)).
    destruct s as [|d s]; cbn.
    + reflexivity.
    + destruct (Ascii.eqb c d); [apply IH | reflexivity].
Qed.

Lemma length_app_separator (p : string) :
  String.length (p ++ "/") = (String.length p + 1)%nat.
Proof.
  induction p as [|c p IH]; [reflexivity |].
  change (String.append (String c p) "/") with (String c (String.append p "/")).
  cbn. now rewrite IH.
Qed.

(** Where every folder that starts the section path does so up to a
    separator, the loop of the source and the resolution of the
    specification take the same folder and build the same identity. *)
Lemma resolve_path_on_segments (workspaceFolders : list vscode.WorkspaceFolder)
    (section_path : string) :
  (forall folder, In folder workspaceFolders ->
     startsWith section_path (vscode.fsPath folder) = true ->
     segment_prefix (vscode.fsPath folder) section_path = true) ->
  resolve_path workspaceFolders section_path
  = spec_resolve_path workspaceFolders section_path.
Proof.
  induction workspaceFolders as [|folder others IH]; intros Hseg; simpl.
  - reflexivity.
  - destruct (startsWith section_path (vscode.fsPath folder)) eqn:Hp.
    + rewrite (Hseg folder (or_introl eq_refl) Hp), length_app_separator.
      reflexivity.
    + unfold segment_prefix. rewrite startsWith_app, Hp. simpl.
      apply IH. intros f Hin. apply Hseg. now right.
Qed.

(** No folder starts the section path: the identity is the raw path. *)
Lemma section_uri_fallback (workspaceFolders : list vscode.WorkspaceFolder)
    (section : SectionSummary.t) :
  (forall folder, In folder workspaceFolders ->
     startsWith (SectionSummary.path section) (vscode.fsPath folder) = false) ->
  section_uri workspaceFolders section
  = vscode.Uri_file (SectionSummary.path section).
Proof.
  unfold section_uri. induction workspaceFolders as [|folder others IH];
    intros Hno; simpl.
  - reflexivity.
  - rewrite (Hno folder (or_introl eq_refl)). apply IH.
    intros f Hin. apply Hno. now right.
Qed.

(** Scenario 5 of the specification. *)
Example scenario_5_match :
  section_uri [vscode.mkWorkspaceFolder "/ws/a"; vscode.mkWorkspaceFolder "/ws/b"]
    (section_at "/ws/b/src/x.c")
  = vscode.Uri_joinPath (vscode.mkWorkspaceFolder "/ws/b") "src/x.c".
Proof. reflexivity. Qed.

Example scenario_5_fallback :
  section_uri [vscode.mkWorkspaceFolder "/ws/a"; vscode.mkWorkspaceFolder "/ws/b"]
    (section_at "/other/x.c")
  = vscode.Uri_file "/other/x.c".
Proof. reflexivity. Qed.

(** C3.  The resolved identity is that of the first folder whose path is a
    full-segment prefix of the section path, joined with the remainder after
    the separator.  The source tests [startsWith] alone and then skips one
    character, taken to be the separator: with the folders [/ws/a] and
    [/ws/ab] and the section path [/ws/ab/src/x.c] it takes [/ws/a], whose
    path ends inside the segment [ab], and joins it with [/src/x.c], where
    the statement gives [/ws/ab] joined with [src/x.c]. *)
Theorem resolve_path_partial_segment :
  section_uri partial_segment_folders (section_at "/ws/ab/src/x.c")
  = vscode.Uri_joinPath (vscode.mkWorkspaceFolder "/ws/a") "/src/x.c"
  /\ spec_section_uri partial_segment_folders (section_at "/ws/ab/src/x.c")
     = vscode.Uri_joinPath (vscode.mkWorkspaceFolder "/ws/ab") "src/x.c"
  /\ segment_prefix "/ws/a" "/ws/ab/src/x.c" = false.
Proof. repeat split; reflexivity. Qed.

(* ================================================================== *)
(** * Summaries *)

(** C8.  The summary of a section is built for every section, and its three
    counts are the section's own hit and instrumented numbers of lines,
    branches and functions, whatever the detail records are. *)
Theorem fileCoverage_projects_summary
    (workspaceFolders : list vscode.WorkspaceFolder) (path : string)
    (li lh bi bh fi fh : N) (ld : list LineEntry.t) (bd : list BranchEntry.t)
    (fd : list FunctionEntry.t) :
  let summary :=
    fileCoverage workspaceFolders
      (SectionSummary.mk path (Summary.mk li lh ld) (Summary.mk bi bh bd)
         (Summary.mk fi fh fd)) in
  vscode.statementCoverage summary = vscode.mkTestCoverageCount lh li
  /\ vscode.branchCoverage summary = vscode.mkTestCoverageCount bh bi
  /\ vscode.declarationCoverage summary = vscode.mkTestCoverageCount fh fi.
Proof. repeat split; reflexivity. Qed.

(* ================================================================== *)
(** * The batch *)

Section BatchFacts.
Variable parseLcov : string -> js_error + list SectionSummary.t.
Variable workspaceFolders : list vscode.WorkspaceFolder.

Lemma task_not_cancelled (item : report) :
  not_cancelled item = true ->
  task parseLcov workspaceFolders item
  = mkTaskResult (summaries workspaceFolders (parsed parseLcov item))
      (failure parseLcov item).
Proof.
  unfold not_cancelled, task, parsed, failure, summaries. intros Hc.
  apply negb_true_iff, orb_false_iff in Hc. destruct Hc as [Hr Hp].
  rewrite Hr, Hp. destruct (readFile item) as [e|contents]; [reflexivity|].
  destruct (parseLcov contents); reflexivity.
Qed.

Lemma select_all {A : Type} (items : list A) :
  flat_map (fun i => match nth_error items i with
                     | Some item => [item]
                     | None => []
                     end) (seq 0 (length items))
  = items.
Proof.
  induction items as [|item items IH]; [reflexivity|].
  cbn [length seq flat_map nth_error]. rewrite <- seq_shift, flat_map_concat_map,
    map_map, <- flat_map_concat_map. cbn [nth_error app]. now rewrite IH.
Qed.

Lemma finished_select (items : list report) (completion : list nat) :
  finished parseLcov workspaceFolders items completion
  = List.map (task parseLcov workspaceFolders)
      (flat_map (fun i => match nth_error items i with
                          | Some item => [item]
                          | None => []
                          end) completion).
Proof.
  unfold finished. induction completion as [|i completion IH]; [reflexivity|].
  cbn [flat_map]. rewrite map_app, <- IH.
  destruct (nth_error items i); reflexivity.
Qed.

Lemma finished_permutation (items : list report) (completion : list nat) :
  Permutation completion (seq 0 (length items)) ->
  Permutation (finished parseLcov workspaceFolders items completion)
              (List.map (task parseLcov workspaceFolders) items).
Proof.
  intros Hp. rewrite finished_select. apply Permutation_map.
  eapply Permutation_trans; [apply Permutation_flat_map, Hp |].
  rewrite select_all. apply Permutation_refl.
Qed.

Lemma first_rejection_none (results : list task_result) :
  first_rejection results = None <->
  (forall r, In r results -> rejection r = None).
Proof.
  induction results as [|r results IH]; simpl.
  - split; [intros _ r [] | reflexivity].
  - destruct (rejection r) as [e|] eqn:Hr.
    + split; [discriminate|]. intros H. rewrite <- Hr. apply H. now left.
    + rewrite IH. split.
      * intros H r' [<-|Hin]; [assumption | now apply H].
      * intros H r' Hin. apply H. now right.
Qed.

Lemma first_rejection_some (results : list task_result) (e : js_error) :
  first_rejection results = Some e ->
  exists r, In r results /\ rejection r = Some e.
Proof.
  induction results as [|r results IH]; simpl; [discriminate|].
  destruct (rejection r) as [e'|] eqn:Hr.
  - intros [= <-]. exists r. split; [now left | assumption].
  - intros H. destruct (IH H) as (r' & Hin & Hr'). exists r'. split; [now right | assumption].
Qed.

Lemma all_finished_permutation (items : list report) (completion : list nat) :
  Permutation completion (seq 0 (length items)) ->
  all_finished items completion = true.
Proof.
  intros Hp. unfold all_finished. apply forallb_forall. intros i Hi.
  apply existsb_exists. exists i. split; [|apply Nat.eqb_refl].
  apply Permutation_sym in Hp. now apply (Permutation_in _ Hp).
Qed.
End BatchFacts.

(** Scenario 4 of the specification, in both orders of completion: the
    summary of the good file is published, and the promise of the batch is
    rejected with the parser's failure; [run.end()] is not reached. *)
Lemma batch_rejected_by_parse_failure :
  collectRunData scenario_4_parser scenario_4_folders scenario_4_items [0; 1]%nat
  = mkRunResult
      [(fileCoverage scenario_4_folders (section_at "/ws/a/x.c"),
        section_at "/ws/a/x.c")]
      (Rejected (Reason "unexpected end of input")) false
  /\ collectRunData scenario_4_parser scenario_4_folders scenario_4_items
       [1; 0]%nat
     = mkRunResult
         [(fileCoverage scenario_4_folders (section_at "/ws/a/x.c"),
           section_at "/ws/a/x.c")]
         (Rejected (Reason "unexpected end of input")) false.
Proof. split; reflexivity. Qed.

(** C2, amended.  When every task of the batch has finished and none was
    cancelled, what has been published is, up to the order of completion,
    the summaries of the sections of every file that was read and parsed,
    and nothing for a file that failed.  A failure is not caught: if some
    file fails, the promise of the batch is rejected with the failure of one
    of the failing files and [run.end()] is not reached; if none fails it
    resolves and [run.end()] is reached. *)
Theorem batch_publishes_successes_and_rejects
    (parseLcov : string -> js_error + list SectionSummary.t)
    (workspaceFolders : list vscode.WorkspaceFolder)
    (items : list report) (completion : list nat) :
  Permutation completion (seq 0 (length items)) ->
  forallb not_cancelled items = true ->
  Permutation
    (addCoverage (collectRunData parseLcov workspaceFolders items completion))
    (flat_map (fun item => summaries workspaceFolders (parsed parseLcov item))
       items)
  /\ ((forall item, In item items -> failure parseLcov item = None) ->
      settled (collectRunData parseLcov workspaceFolders items completion)
      = Resolved
      /\ ended (collectRunData parseLcov workspaceFolders items completion)
         = true)
  /\ ((exists item, In item items /\ failure parseLcov item <> None) ->
      exists e item,
        In item items
        /\ failure parseLcov item = Some e
        /\ settled (collectRunData parseLcov workspaceFolders items completion)
           = Rejected e
        /\ ended (collectRunData parseLcov workspaceFolders items completion)
           = false).
Proof.
  intros Hperm Hcancel.
  set (r := collectRunData parseLcov workspaceFolders items completion).
  pose proof (finished_permutation parseLcov workspaceFolders items completion
                Hperm) as Hfin.
  assert (Htask : forall item, In item items ->
            task parseLcov workspaceFolders item
            = mkTaskResult (summaries workspaceFolders (parsed parseLcov item))
                (failure parseLcov item)).
  { intros item Hin. apply task_not_cancelled.
    rewrite forallb_forall in Hcancel. now apply Hcancel. }
  split; [|split].
  - subst r. cbn [addCoverage collectRunData].
    eapply Permutation_trans; [apply Permutation_flat_map, Hfin |].
    rewrite !flat_map_concat_map, map_map.
    erewrite map_ext_in; [apply Permutation_refl |].
    intros item Hin. cbn beta. now rewrite (Htask item Hin).
  - intros Hnone.
    assert (Hrej : first_rejection
                     (finished parseLcov workspaceFolders items completion)
                   = None).
    { apply first_rejection_none. intros t Hin.
      apply (Permutation_in _ Hfin), in_map_iff in Hin.
      destruct Hin as (item & <- & Hin).
      rewrite (Htask item Hin). cbn. now apply Hnone. }
    subst r. unfold collectRunData, promise_all.
    rewrite Hrej, (all_finished_permutation items completion Hperm).
    now split.
  - intros (item & Hin & Hfail).
    destruct (first_rejection
                (finished parseLcov workspaceFolders items completion))
      as [e|] eqn:Hrej.
    + destruct (first_rejection_some _ _ Hrej) as (t & Hint & Ht).
      apply (Permutation_in _ Hfin), in_map_iff in Hint.
      destruct Hint as (item' & <- & Hin').
      rewrite (Htask item' Hin') in Ht. cbn in Ht.
      exists e, item'. subst r. unfold collectRunData, promise_all.
      rewrite Hrej. now repeat split.
    + exfalso. apply Hfail.
      rewrite first_rejection_none in Hrej.
      specialize (Hrej (task parseLcov workspaceFolders item)).
      rewrite (Htask item Hin) in Hrej. cbn in Hrej. apply Hrej.
      apply (Permutation_in _ (Permutation_sym Hfin)).
      rewrite <- (Htask item Hin). now apply in_map.
Qed.

Lemma batch_publishes_successes_and_rejects_witness :
  Permutation
    (addCoverage (collectRunData scenario_4_parser scenario_4_folders
                    scenario_4_items [1; 0]%nat))
    (flat_map
       (fun item => summaries scenario_4_folders (parsed scenario_4_parser item))
       scenario_4_items)
  /\ ((forall item, In item scenario_4_items ->
         failure scenario_4_parser item = None) ->
      settled (collectRunData scenario_4_parser scenario_4_folders
                 scenario_4_items [1; 0]%nat) = Resolved
      /\ ended (collectRunData scenario_4_parser scenario_4_folders
                  scenario_4_items [1; 0]%nat) = true)
  /\ ((exists item, In item scenario_4_items
                    /\ failure scenario_4_parser item <> None) ->
      exists e item,
        In item scenario_4_items
        /\ failure scenario_4_parser item = Some e
        /\ settled (collectRunData scenario_4_parser scenario_4_folders
                      scenario_4_items [1; 0]%nat) = Rejected e
        /\ ended (collectRunData scenario_4_parser scenario_4_folders
                    scenario_4_items [1; 0]%nat) = false).
Proof.
  apply (batch_publishes_successes_and_rejects scenario_4_parser
           scenario_4_folders scenario_4_items [1; 0]%nat).
  - apply perm_swap.
  - reflexivity.
Defined.

(* ================================================================== *)
(** * The mangled-symbol pattern *)

(** The regular expression of line 159 accepts a name exactly when the name
    has one to three leading underscores followed by [Z]. *)
Lemma regex_mangled_spec (name : string) :
  regex_mangled name = spec_mangled name.
Proof.
  destruct name as [|c1 name]; [reflexivity|]. by_character c1.
  destruct name as [|c2 name]; [reflexivity|]. by_character c2.
  destruct name as [|c3 name]; [reflexivity|]. by_character c3.
  destruct name as [|c4 name]; [reflexivity|]. by_character c4.
Qed.

Example mangled_examples :
  List.map regex_mangled ["_Z3fooi"; "__Z3fooi"; "___Z3fooi"; "____Z3fooi"; "Z3fooi";
                     "main"; ""; "_"; "x_Z"]
  = [true; true; true; false; false; false; false; false; false].
Proof. reflexivity. Qed.

(* ================================================================== *)
(** * The function entries *)

Lemma declarations_cons (f : demangler) (fn : FunctionEntry.t)
    (fns : list FunctionEntry.t) :
  declarations f (fn :: fns)
  = (if nonempty fn
     then [declaration (display f (FunctionEntry.name fn)) fn]
     else []) ++ declarations f fns.
Proof. unfold declarations. cbn [List.filter]. now destruct (nonempty fn). Qed.

Lemma demangled_cons (f : demangler) (fn : FunctionEntry.t)
    (fns : list FunctionEntry.t) :
  demangled f (fn :: fns)
  = (if spec_mangled (FunctionEntry.name fn)
     then [(FunctionEntry.name fn, f (FunctionEntry.name fn))]
     else []) ++ demangled f fns.
Proof.
  unfold demangled. cbn [List.filter].
  now destruct (spec_mangled (FunctionEntry.name fn)).
Qed.

Lemma empty_not_mangled (name : string) :
  (String.length name =? 0)%nat = true -> spec_mangled name = false.
Proof. destruct name; [reflexivity | discriminate]. Qed.

(** Once the function is in the cache the loop runs to its end. *)
Lemma functions_loop_loaded (f : demangler) (fns : list FunctionEntry.t) :
  forall (w : world) (fr : frame),
  demangle w = SlotFunction f ->
  functions_loop w fr fns
  = (w, Returned (mkFrame (details fr ++ declarations f fns)
                          (calls fr ++ demangled f fns))).
Proof.
  induction fns as [|fn fns IH]; intros w fr Hw.
  - cbn. rewrite !app_nil_r. now destruct fr.
  - cbn [functions_loop]. rewrite declarations_cons, demangled_cons.
    unfold nonempty, display. rewrite regex_mangled_spec.
    destruct (String.length (FunctionEntry.name fn) =? 0)%nat eqn:Hlen.
    + rewrite (empty_not_mangled _ Hlen). cbn. now apply IH.
    + destruct (spec_mangled (FunctionEntry.name fn)).
      * rewrite Hw, (IH w _ Hw). cbn. now rewrite <- ?app_assoc.
      * rewrite (IH w _ Hw). cbn. now rewrite <- ?app_assoc, ?app_nil_r.
Qed.

(** A call that finds a function in the cache, or a promise that will be
    fulfilled, goes through all the function entries. *)
Lemma functions_loop_resolves (loadDemangle : nat -> js_error + demangler)
    (f : demangler) (fns : list FunctionEntry.t) :
  forall (w : world) (fr : frame),
  (needs_demangler fns = true -> resolves loadDemangle w = Some f) ->
  (let (w', t) := functions_loop w fr fns in resume loadDemangle w' t)
  = (world_after w (prototype_executed w) f fns,
     Returned (mkFrame (details fr ++ declarations f fns)
                       (calls fr ++ demangled f fns))).
Proof.
  induction fns as [|fn fns IH]; intros w fr Hres.
  - cbn. rewrite !app_nil_r. now destruct fr, w.
  - cbn [functions_loop]. rewrite declarations_cons, demangled_cons.
    unfold world_after, nonempty, display in *. cbn [needs_demangler existsb] in *.
    unfold nonempty in *. rewrite regex_mangled_spec in *.
    destruct (String.length (FunctionEntry.name fn) =? 0)%nat eqn:Hlen.
    + rewrite (empty_not_mangled _ Hlen) in *. cbn in *. now apply IH.
    + destruct (spec_mangled (FunctionEntry.name fn)); cbn [negb andb orb app] in *.
      * specialize (Hres eq_refl). unfold resolves in Hres.
        destruct (demangle w) as [|p|g] eqn:Hslot.
        -- cbn [resume]. destruct (loadDemangle (loads w)) as [e|g]; [discriminate|].
           injection Hres as ->.
           rewrite (functions_loop_loaded f); [|reflexivity].
           cbn. now rewrite <- ?app_assoc.
        -- cbn [resume]. destruct (loadDemangle p) as [e|g]; [discriminate|].
           injection Hres as ->.
           rewrite (functions_loop_loaded f); [|reflexivity].
           cbn. now rewrite <- ?app_assoc.
        -- injection Hres as ->.
           rewrite (functions_loop_loaded f fns w); [|assumption].
           cbn. rewrite <- !app_assoc. destruct w. cbn in *. now subst.
      * rewrite (IH w _ Hres). cbn. now rewrite <- ?app_assoc, ?app_nil_r.
Qed.

(* ================================================================== *)
(** * The branch records *)

Lemma own_property_set_eq (o : object) (k : string) (v : vscode.BranchCoverage) :
  own_property (set o k v) k = Some v.
Proof.
  induction o as [|[k' v'] o IH]; cbn.
  - now rewrite String.eqb_refl.
  - destruct (String.eqb k' k) eqn:Hk; cbn; now rewrite Hk.
Qed.

Lemma own_property_set_ne (o : object) (k k' : string) (v : vscode.BranchCoverage) :
  k <> k' -> own_property (set o k v) k' = own_property o k'.
Proof.
  intros Hne. induction o as [|[k0 v0] o IH]; cbn.
  - destruct (String.eqb_spec k k'); [contradiction | reflexivity].
  - destruct (String.eqb_spec k0 k) as [->|Hk0]; cbn.
    + destruct (String.eqb_spec k k'); [contradiction | reflexivity].
    + now rewrite IH.
Qed.

(** Pollution only ever turns a success into a TypeError: where the body of
    the loop succeeds, the object it leaves is the one it leaves without
    pollution. *)
Lemma merge_branch_own (polluted polluted' : bool) (o o' : object)
    (b : BranchEntry.t) :
  merge_branch polluted o b = (polluted', inr o') -> o' = own_merge o b.
Proof.
  unfold own_merge, merge_branch, get.
  destruct (own_property o (BranchEntry.branch b)) as [c|] eqn:Ho.
  - rewrite Ho. cbn. now intros [= _ <-].
  - destruct (String.eqb (BranchEntry.branch b) "__proto__").
    { rewrite Ho. cbn. now intros [= _ <-]. }
    destruct (existsb (String.eqb (BranchEntry.branch b))
                object_prototype_functions).
    { rewrite Ho. cbn. now intros [= _ <-]. }
    rewrite andb_false_r.
    destruct (String.eqb (BranchEntry.branch b) "executed" && polluted).
    + rewrite Ho. discriminate.
    + rewrite own_property_set_eq. cbn. now intros [= _ <-].
Qed.

(** After the loop, the object of each line is what the records of that
    line, in their order, make of the object the line had before. *)
Lemma branches_loop_lines (bs : list BranchEntry.t) :
  forall (polluted polluted' : bool) (m m' : gmap positive object),
  branches_loop polluted m bs = (polluted', inr m') ->
  forall line,
    default [] (m' !! line)
    = fold_left own_merge (List.filter (on_line line) bs) (default [] (m !! line)).
Proof.
  induction bs as [|b bs IH]; intros polluted polluted' m m' Hloop line.
  - cbn in Hloop. now injection Hloop as _ <-.
  - cbn [branches_loop] in Hloop.
    destruct (merge_branch polluted (default [] (m !! BranchEntry.line b)) b)
      as [p1 [e|o1]] eqn:Hmerge; [discriminate|].
    rewrite (IH _ _ _ _ Hloop line). cbn [List.filter]. unfold on_line at 2.
    destruct (Pos.eqb_spec (BranchEntry.line b) line) as [<-|Hne].
    + rewrite lookup_insert_eq. cbn. now rewrite (merge_branch_own _ _ _ _ _ Hmerge).
    + now rewrite lookup_insert_ne.
Qed.

Lemma branches_loop_group (bs : list BranchEntry.t) (polluted polluted' : bool)
    (m' : gmap positive object) :
  branches_loop polluted ∅ bs = (polluted', inr m') ->
  forall line, default [] (m' !! line) = branch_group bs line.
Proof.
  intros Hloop line. rewrite (branches_loop_lines _ _ _ _ _ Hloop line).
  now rewrite lookup_empty.
Qed.

Lemma lines_loop_expected (bs : list BranchEntry.t) (polluted polluted' : bool)
    (m' : gmap positive object) (lines : list LineEntry.t) :
  branches_loop polluted ∅ bs = (polluted', inr m') ->
  lines_loop m' lines = List.map (expected_statement bs) lines.
Proof.
  intros Hloop. unfold lines_loop. apply map_ext. intros l.
  unfold statement, expected_statement.
  now rewrite (branches_loop_group _ _ _ _ Hloop).
Qed.

(** A line no branch record names has no branch records attached. *)
Lemma branch_group_no_record (bs : list BranchEntry.t) (line : positive) :
  (forall b, In b bs -> BranchEntry.line b <> line) ->
  branch_group bs line = [].
Proof.
  intros Hno. unfold branch_group.
  replace (List.filter (on_line line) bs) with (@nil BranchEntry.t); [reflexivity|].
  symmetry. induction bs as [|b bs IH]; [reflexivity|]. cbn.
  unfold on_line at 1. destruct (Pos.eqb_spec (BranchEntry.line b) line) as [He|_].
  - exfalso. apply (Hno b); [now left | assumption].
  - apply IH. intros b' Hin. apply Hno. now right.
Qed.

(** Where the branch loop does not pass: the record of [__proto__] leaves
    an [executed] on [Object.prototype], and the record of [executed] then
    finds that number instead of a record of its own. *)
Example branch_loop_type_error :
  branches_pass false
    (Summary.details (SectionSummary.branches polluting_section)) = false
  /\ loadDetailedCoverage scenario_loader fresh_world (Some polluting_section)
     = (mkWorld SlotUndefined 0 true, Thrown TypeError).
Proof. split; reflexivity. Qed.

(* ================================================================== *)
(** * Detail expansion *)

Lemma resolves_pollution (loadDemangle : nat -> js_error + demangler)
    (w : world) (polluted : bool) :
  resolves loadDemangle (mkWorld (demangle w) (loads w) polluted)
  = resolves loadDemangle w.
Proof. reflexivity. Qed.

(** The call returns whenever the branch loop passes and the cache gives a
    demangler to the entries that need one; what it returns is the statement
    records of the line entries followed by the declaration records of the
    function entries. *)
Lemma loadDetailedCoverage_returns (loadDemangle : nat -> js_error + demangler)
    (w : world) (s : SectionSummary.t) (f : demangler) :
  let bs := Summary.details (SectionSummary.branches s) in
  let fns := Summary.details (SectionSummary.functions s) in
  branches_pass (prototype_executed w) bs = true ->
  (needs_demangler fns = true -> resolves loadDemangle w = Some f) ->
  loadDetailedCoverage loadDemangle w (Some s)
  = (world_after w (fst (branches_loop (prototype_executed w) ∅ bs)) f fns,
     Returned
       (mkFrame
          (List.map (expected_statement bs)
             (Summary.details (SectionSummary.lines s))
           ++ declarations f fns)
          (demangled f fns))).
Proof.
  intros bs fns Hpass Hres. unfold loadDetailedCoverage, start, branches_pass in *.
  fold bs fns.
  destruct (branches_loop (prototype_executed w) ∅ bs) as [polluted [e|m]] eqn:Hloop;
    [discriminate|].
  rewrite (functions_loop_resolves loadDemangle f fns); [|exact Hres].
  now rewrite (lines_loop_expected _ _ _ _ _ Hloop).
Qed.

Lemma statements_of_output (bs : list BranchEntry.t) (lines : list LineEntry.t)
    (f : demangler) (fns : list FunctionEntry.t) :
  List.filter is_statement
    (List.map (expected_statement bs) lines ++ declarations f fns)
  = List.map (expected_statement bs) lines.
Proof.
  rewrite List.filter_app.
  replace (List.filter is_statement (declarations f fns))
    with (@nil vscode.FileCoverageDetail).
  - rewrite app_nil_r. induction lines as [|l lines IH]; [reflexivity|].
    cbn. now rewrite IH.
  - unfold declarations. induction (List.filter nonempty fns); [reflexivity|].
    assumption.
Qed.

Lemma declarations_of_output (bs : list BranchEntry.t) (lines : list LineEntry.t)
    (f : demangler) (fns : list FunctionEntry.t) :
  List.filter is_declaration
    (List.map (expected_statement bs) lines ++ declarations f fns)
  = declarations f fns.
Proof.
  rewrite List.filter_app.
  replace (List.filter is_declaration (List.map (expected_statement bs) lines))
    with (@nil vscode.FileCoverageDetail).
  - unfold declarations. induction (List.filter nonempty fns) as [|fn l IH];
      [reflexivity|]. cbn in *. now rewrite IH.
  - induction lines; [reflexivity | assumption].
Qed.

Lemma declared_names_of_output (bs : list BranchEntry.t)
    (lines : list LineEntry.t) (f : demangler) (fns : list FunctionEntry.t) :
  declared_names (List.map (expected_statement bs) lines ++ declarations f fns)
  = List.map (fun fn => display f (FunctionEntry.name fn))
      (List.filter nonempty fns).
Proof.
  unfold declared_names. rewrite flat_map_app.
  replace (flat_map _ (List.map (expected_statement bs) lines))
    with (@nil string).
  - unfold declarations. induction (List.filter nonempty fns) as [|fn l IH];
      [reflexivity|]. cbn in *. now rewrite IH.
  - induction lines; [reflexivity | assumption].
Qed.

Lemma rebase (line : positive) : Pos.pred_N line = (N.pos line - 1)%N.
Proof. rewrite N.pos_pred_spec. lia. Qed.

(** The statement records of a call that returns, in terms of the objects
    the branch loop builds: one record per entry of [lines.details], in the
    order of the section, at the position one below the entry's line and
    with the entry's hit count, carrying the values of the object of that
    line, none when no branch record names the line.  What those values are
    is the matter of [branch_group_is_spec_group]. *)
Theorem line_records_follow_line_entries
    (loadDemangle : nat -> js_error + demangler) (w : world)
    (s : SectionSummary.t) (f : demangler) :
  branches_pass (prototype_executed w)
    (Summary.details (SectionSummary.branches s)) = true ->
  (needs_demangler (Summary.details (SectionSummary.functions s)) = true ->
   resolves loadDemangle w = Some f) ->
  exists w' fr,
    loadDetailedCoverage loadDemangle w (Some s) = (w', Returned fr)
    /\ List.filter is_statement (details fr)
       = List.map
           (fun l =>
              vscode.StatementCoverage (LineEntry.hit l)
                (vscode.mkPosition (N.pos (LineEntry.line l) - 1) 0)
                (Object_values
                   (branch_group (Summary.details (SectionSummary.branches s))
                      (LineEntry.line l))))
           (Summary.details (SectionSummary.lines s))
    /\ (forall line,
          (forall b, In b (Summary.details (SectionSummary.branches s)) ->
                     BranchEntry.line b <> line) ->
          Object_values
            (branch_group (Summary.details (SectionSummary.branches s)) line)
          = []).
Proof.
  intros Hpass Hres. eexists _, _. split; [|split].
  - now apply (loadDetailedCoverage_returns loadDemangle w s f).
  - cbn [details]. rewrite statements_of_output. apply map_ext. intros l.
    unfold expected_statement. now rewrite rebase.
  - intros line Hno. now rewrite branch_group_no_record.
Qed.

Lemma line_records_follow_line_entries_witness :
  exists w' fr,
    loadDetailedCoverage scenario_loader fresh_world (Some scenario_section)
    = (w', Returned fr)
    /\ List.filter is_statement (details fr)
       = List.map
           (fun l =>
              vscode.StatementCoverage (LineEntry.hit l)
                (vscode.mkPosition (N.pos (LineEntry.line l) - 1) 0)
                (Object_values
                   (branch_group
                      (Summary.details (SectionSummary.branches scenario_section))
                      (LineEntry.line l))))
           (Summary.details (SectionSummary.lines scenario_section))
    /\ (forall line,
          (forall b,
              In b (Summary.details (SectionSummary.branches scenario_section)) ->
              BranchEntry.line b <> line) ->
          Object_values
            (branch_group
               (Summary.details (SectionSummary.branches scenario_section)) line)
          = []).
Proof.
  apply (line_records_follow_line_entries scenario_loader fresh_world
           scenario_section scenario_demangler).
  - reflexivity.
  - intros _. reflexivity.
Defined.

(** C6.  A call that returns emits one declaration record per entry of
    [functions.details] whose name is not empty, in the order of the
    section, at the position one below the entry's line and with the entry's
    hit count; entries with an empty name give no record. *)
Theorem declaration_records_follow_function_entries
    (loadDemangle : nat -> js_error + demangler) (w : world)
    (s : SectionSummary.t) (f : demangler) :
  branches_pass (prototype_executed w)
    (Summary.details (SectionSummary.branches s)) = true ->
  (needs_demangler (Summary.details (SectionSummary.functions s)) = true ->
   resolves loadDemangle w = Some f) ->
  exists w' fr,
    loadDetailedCoverage loadDemangle w (Some s) = (w', Returned fr)
    /\ List.filter is_declaration (details fr)
       = List.map
           (fun fn =>
              vscode.DeclarationCoverage
                (display f (FunctionEntry.name fn))
                (FunctionEntry.hit fn)
                (vscode.mkPosition (N.pos (FunctionEntry.line fn) - 1) 0))
           (List.filter
              (fun fn => negb (String.eqb (FunctionEntry.name fn) ""))
              (Summary.details (SectionSummary.functions s))).
Proof.
  intros Hpass Hres. eexists _, _. split.
  - now apply (loadDetailedCoverage_returns loadDemangle w s f).
  - cbn [details]. rewrite declarations_of_output. unfold declarations.
    erewrite filter_ext.
    + apply map_ext. intros fn. unfold declaration. now rewrite rebase.
    + intros fn. unfold nonempty. now destruct (FunctionEntry.name fn).
Qed.

Lemma declaration_records_follow_function_entries_witness :
  exists w' fr,
    loadDetailedCoverage scenario_loader fresh_world (Some scenario_section)
    = (w', Returned fr)
    /\ List.filter is_declaration (details fr)
       = List.map
           (fun fn =>
              vscode.DeclarationCoverage
                (display scenario_demangler (FunctionEntry.name fn))
                (FunctionEntry.hit fn)
                (vscode.mkPosition (N.pos (FunctionEntry.line fn) - 1) 0))
           (List.filter
              (fun fn => negb (String.eqb (FunctionEntry.name fn) ""))
              (Summary.details (SectionSummary.functions scenario_section))).
Proof.
  apply (declaration_records_follow_function_entries scenario_loader
           fresh_world scenario_section scenario_demangler).
  - reflexivity.
  - intros _. reflexivity.
Defined.

(** C5.  In a call that returns, the demangler is called once for each
    function entry whose name has one to three leading underscores followed
    by [Z], in the order of the entries, and for no other entry; the
    declaration records carry the demangler's result for those names and
    the name itself for the others. *)
Theorem mangled_names_demangled_once
    (loadDemangle : nat -> js_error + demangler) (w : world)
    (s : SectionSummary.t) (f : demangler) :
  branches_pass (prototype_executed w)
    (Summary.details (SectionSummary.branches s)) = true ->
  (needs_demangler (Summary.details (SectionSummary.functions s)) = true ->
   resolves loadDemangle w = Some f) ->
  exists w' fr,
    loadDetailedCoverage loadDemangle w (Some s) = (w', Returned fr)
    /\ calls fr
       = List.map (fun fn => (FunctionEntry.name fn, f (FunctionEntry.name fn)))
           (List.filter (fun fn => spec_mangled (FunctionEntry.name fn))
              (Summary.details (SectionSummary.functions s)))
    /\ declared_names (details fr)
       = List.map
           (fun fn => if spec_mangled (FunctionEntry.name fn)
                      then f (FunctionEntry.name fn)
                      else FunctionEntry.name fn)
           (List.filter
              (fun fn => negb (String.eqb (FunctionEntry.name fn) ""))
              (Summary.details (SectionSummary.functions s))).
Proof.
  intros Hpass Hres. eexists _, _. split; [|split].
  - now apply (loadDetailedCoverage_returns loadDemangle w s f).
  - reflexivity.
  - cbn [details]. rewrite declared_names_of_output.
    erewrite filter_ext; [reflexivity|].
    intros fn. unfold nonempty. now destruct (FunctionEntry.name fn).
Qed.

Lemma mangled_names_demangled_once_witness :
  exists w' fr,
    loadDetailedCoverage scenario_loader fresh_world (Some scenario_section)
    = (w', Returned fr)
    /\ calls fr
       = List.map
           (fun fn => (FunctionEntry.name fn,
                       scenario_demangler (FunctionEntry.name fn)))
           (List.filter (fun fn => spec_mangled (FunctionEntry.name fn))
              (Summary.details (SectionSummary.functions scenario_section)))
    /\ declared_names (details fr)
       = List.map
           (fun fn => if spec_mangled (FunctionEntry.name fn)
                      then scenario_demangler (FunctionEntry.name fn)
                      else FunctionEntry.name fn)
           (List.filter
              (fun fn => negb (String.eqb (FunctionEntry.name fn) ""))
              (Summary.details (SectionSummary.functions scenario_section))).
Proof.
  apply (mangled_names_demangled_once scenario_loader fresh_world
           scenario_section scenario_demangler).
  - reflexivity.
  - intros _. reflexivity.
Defined.

(** Scenarios 1, 2 and 3 of the specification. *)
Example scenarios_1_2_3 :
  snd (loadDetailedCoverage scenario_loader fresh_world (Some scenario_section))
  = Returned
      (mkFrame
         [ vscode.StatementCoverage 3 (vscode.mkPosition 9 0)
             [ vscode.mkBranchCoverage 3 (vscode.mkPosition 9 0) "0";
               vscode.mkBranchCoverage 0 (vscode.mkPosition 9 0) "1" ];
           vscode.DeclarationCoverage "foo(int)" 1 (vscode.mkPosition 4 0);
           vscode.DeclarationCoverage "main" 2 (vscode.mkPosition 6 0) ]
         [("_Z3fooi", "foo(int)")]).
Proof. reflexivity. Qed.

(* ================================================================== *)
(** * Branch records of lines without a line record *)

Lemma functions_loop_same_cache (fns : list FunctionEntry.t) :
  forall (w1 w2 : world) (fr : frame),
  same_cache w1 w2 ->
  same_cache (fst (functions_loop w1 fr fns)) (fst (functions_loop w2 fr fns))
  /\ snd (functions_loop w1 fr fns) = snd (functions_loop w2 fr fns).
Proof.
  induction fns as [|fn fns IH]; intros w1 w2 fr Hc; cbn [functions_loop].
  - now split.
  - destruct (String.length (FunctionEntry.name fn) =? 0)%nat; [now apply IH|].
    destruct (regex_mangled (FunctionEntry.name fn)); [|now apply IH].
    destruct Hc as [Hd Hl]. rewrite Hd.
    destruct (demangle w2) as [|p|g] eqn:Hslot.
    + unfold same_cache. cbn. rewrite Hl. now repeat split.
    + unfold same_cache. cbn. repeat split; congruence.
    + apply IH. split; congruence.
Qed.

Lemma resume_same_cache (loadDemangle : nat -> js_error + demangler)
    (w1 w2 : world) (t : thread) :
  same_cache w1 w2 ->
  same_cache (fst (resume loadDemangle w1 t)) (fst (resume loadDemangle w2 t))
  /\ snd (resume loadDemangle w1 t) = snd (resume loadDemangle w2 t).
Proof.
  intros Hc. destruct t as [p fr fn rest|fr|e]; cbn [resume]; try now split.
  destruct (loadDemangle p) as [e|g]; [now split|].
  apply functions_loop_same_cache. destruct Hc as [_ Hl]. now split.
Qed.

(** The function entries are gone through in the same way from two worlds
    with the same cache. *)
Lemma functions_then_resume_same_cache
    (loadDemangle : nat -> js_error + demangler) (w1 w2 : world) (fr : frame)
    (fns : list FunctionEntry.t) :
  same_cache w1 w2 ->
  snd (let (w', t) := functions_loop w1 fr fns in resume loadDemangle w' t)
  = snd (let (w', t) := functions_loop w2 fr fns in resume loadDemangle w' t)
  /\ same_cache
       (fst (let (w', t) := functions_loop w1 fr fns in resume loadDemangle w' t))
       (fst (let (w', t) := functions_loop w2 fr fns in resume loadDemangle w' t)).
Proof.
  intros Hc. destruct (functions_loop_same_cache fns w1 w2 fr Hc) as [Hc' Ht].
  destruct (functions_loop w1 fr fns) as [wa ta].
  destruct (functions_loop w2 fr fns) as [wb tb].
  cbn [fst snd] in Hc', Ht. subst tb.
  destruct (resume_same_cache loadDemangle wa wb ta Hc') as [Hc'' Ht'].
  now split.
Qed.

Lemma merge_branch_pollution_grows (polluted polluted' : bool) (o : object)
    (b : BranchEntry.t) (r : js_error + object) :
  merge_branch polluted o b = (polluted', r) ->
  polluted = true -> polluted' = true.
Proof.
  unfold merge_branch. intros H ->.
  destruct (get true _ (BranchEntry.branch b)); now injection H as <- _.
Qed.

(** With less pollution the body of the loop succeeds where it succeeded,
    with the same object. *)
Lemma merge_branch_less_polluted (polluted polluted' less : bool) (o o' : object)
    (b : BranchEntry.t) :
  merge_branch polluted o b = (polluted', inr o') ->
  (less = true -> polluted = true) ->
  exists less', merge_branch less o b = (less', inr o')
                /\ (less' = true -> polluted' = true).
Proof.
  intros Hmerge Hless. destruct less.
  - rewrite (Hless eq_refl) in Hmerge. exists polluted'. now split.
  - pose proof (merge_branch_own _ _ _ _ _ Hmerge) as ->.
    unfold own_merge.
    destruct (merge_branch false o b) as [less' [e|o'']] eqn:Hfalse.
    + exfalso. revert Hfalse. unfold merge_branch, get.
      destruct (own_property o (BranchEntry.branch b)) as [c|] eqn:Ho.
      * rewrite Ho. discriminate.
      * destruct (String.eqb (BranchEntry.branch b) "__proto__");
          [rewrite Ho; discriminate|].
        destruct (existsb (String.eqb (BranchEntry.branch b))
                    object_prototype_functions); [rewrite Ho; discriminate|].
        rewrite andb_false_r, own_property_set_eq. discriminate.
    + exists less'. split; [reflexivity|]. intros ->.
      revert Hfalse Hmerge. unfold merge_branch, get.
      destruct (own_property o (BranchEntry.branch b)) as [c|] eqn:Ho.
      * rewrite Ho. discriminate.
      * destruct (String.eqb (BranchEntry.branch b) "__proto__").
        { rewrite Ho. intros _ H. now injection H as <- _. }
        destruct (existsb (String.eqb (BranchEntry.branch b))
                    object_prototype_functions); [rewrite Ho; discriminate|].
        rewrite andb_false_r, own_property_set_eq. discriminate.
Qed.

(** Taking records away, by lines, keeps the loop from failing and keeps
    the objects of the lines that stay. *)
Lemma branches_loop_filter (keep : positive -> bool) (bs : list BranchEntry.t) :
  forall (polluted polluted' less : bool) (m m' n : gmap positive object),
  branches_loop polluted m bs = (polluted', inr m') ->
  (less = true -> polluted = true) ->
  (forall line, keep line = true -> n !! line = m !! line) ->
  exists less' n',
    branches_loop less n (List.filter (fun b => keep (BranchEntry.line b)) bs)
    = (less', inr n')
    /\ (forall line, keep line = true -> n' !! line = m' !! line).
Proof.
  induction bs as [|b bs IH]; intros polluted polluted' less m m' n Hloop Hless Hn.
  - cbn in *. injection Hloop as _ <-. now exists less, n.
  - cbn [branches_loop] in Hloop.
    destruct (merge_branch polluted (default [] (m !! BranchEntry.line b)) b)
      as [p1 [e|o1]] eqn:Hmerge; [discriminate|].
    cbn [List.filter]. cbn beta. destruct (keep (BranchEntry.line b)) eqn:Hkeep.
    + cbn [branches_loop]. rewrite (Hn _ Hkeep).
      destruct (merge_branch_less_polluted _ _ less _ _ _ Hmerge Hless)
        as (less1 & -> & Hless1).
      apply (IH _ _ _ _ _ _ Hloop Hless1).
      intros line Hline.
      destruct (Pos.eq_dec (BranchEntry.line b) line) as [<-|Hne].
      * now rewrite !lookup_insert_eq.
      * rewrite !lookup_insert_ne by assumption. now apply Hn.
    + apply (IH _ _ _ _ _ _ Hloop).
      * intros Hl. apply (merge_branch_pollution_grows _ _ _ _ _ Hmerge).
        now apply Hless.
      * intros line Hline. rewrite lookup_insert_ne; [now apply Hn|].
        intros <-. congruence.
Qed.

Lemma lines_loop_agree (m n : gmap positive object) (lines : list LineEntry.t) :
  (forall line,
     existsb (fun l => Pos.eqb (LineEntry.line l) line) lines = true ->
     n !! line = m !! line) ->
  lines_loop n lines = lines_loop m lines.
Proof.
  intros Hagree. unfold lines_loop. apply map_ext_in. intros l Hin.
  unfold statement. rewrite Hagree; [reflexivity|].
  apply existsb_exists. exists l. split; [assumption | apply Pos.eqb_refl].
Qed.

(** Where the branch loop passes: the call on the section and the call on
    the section without the branch records whose line has no entry in
    [lines.details] end alike, with the same records returned (or the same
    failure of the demangler load), and leave the same demangler cache. *)
Theorem orphan_branch_records_dropped
    (loadDemangle : nat -> js_error + demangler) (w : world)
    (s : SectionSummary.t) :
  branches_pass (prototype_executed w)
    (Summary.details (SectionSummary.branches s)) = true ->
  snd (loadDetailedCoverage loadDemangle w (Some (without_orphans s)))
  = snd (loadDetailedCoverage loadDemangle w (Some s))
  /\ same_cache (fst (loadDetailedCoverage loadDemangle w (Some (without_orphans s))))
                (fst (loadDetailedCoverage loadDemangle w (Some s))).
Proof.
  intros Hpass. unfold loadDetailedCoverage, start, branches_pass in *.
  cbn [without_orphans SectionSummary.branches SectionSummary.lines
       SectionSummary.functions Summary.details].
  destruct (branches_loop (prototype_executed w) ∅
              (Summary.details (SectionSummary.branches s)))
    as [polluted [e|m]] eqn:Hloop; [discriminate|].
  destruct (branches_loop_filter
              (fun line => existsb (fun l => Pos.eqb (LineEntry.line l) line)
                             (Summary.details (SectionSummary.lines s)))
              _ _ _ (prototype_executed w) _ _ ∅ Hloop)
    as (less & n & Hfiltered & Hagree); [trivial | trivial |].
  change (List.filter (has_line (Summary.details (SectionSummary.lines s)))
            (Summary.details (SectionSummary.branches s)))
    with (List.filter
            (fun b => existsb (fun l => Pos.eqb (LineEntry.line l) (BranchEntry.line b))
                        (Summary.details (SectionSummary.lines s)))
            (Summary.details (SectionSummary.branches s))).
  rewrite Hfiltered, (lines_loop_agree m n _ Hagree).
  apply functions_then_resume_same_cache. now split.
Qed.

Lemma orphan_branch_records_dropped_witness :
  snd (loadDetailedCoverage scenario_loader fresh_world
         (Some (without_orphans orphan_section)))
  = snd (loadDetailedCoverage scenario_loader fresh_world (Some orphan_section))
  /\ same_cache
       (fst (loadDetailedCoverage scenario_loader fresh_world
               (Some (without_orphans orphan_section))))
       (fst (loadDetailedCoverage scenario_loader fresh_world
               (Some orphan_section))).
Proof.
  apply (orphan_branch_records_dropped scenario_loader fresh_world
           orphan_section).
  reflexivity.
Defined.

(** A branch record on a line without a line record leaves no trace in the
    output. *)
Example orphan_branch_record :
  snd (loadDetailedCoverage scenario_loader fresh_world
         (Some (SectionSummary.mk "/ws/b/src/x.c"
                  (Summary.mk 1 1 [LineEntry.mk 10 3])
                  (Summary.mk 2 1 [BranchEntry.mk 10 "0" 1;
                                   BranchEntry.mk 11 "0" 2])
                  (Summary.mk 0 0 []))))
  = Returned
      (mkFrame
         [ vscode.StatementCoverage 3 (vscode.mkPosition 9 0)
             [ vscode.mkBranchCoverage 1 (vscode.mkPosition 9 0) "0" ] ]
         []).
Proof. reflexivity. Qed.

(* ================================================================== *)
(** * A load that fails *)

(** A call that needs the demangler and finds no function in the cache
    awaits a promise; when that promise is rejected the call throws the
    rejection, and the cache holds the promise. *)
Lemma functions_loop_rejected (loadDemangle : nat -> js_error + demangler)
    (e : js_error) (fns : list FunctionEntry.t) :
  forall (w : world) (fr : frame) (p : nat),
  needs_demangler fns = true ->
  match demangle w with
  | SlotUndefined => p = loads w
  | SlotPromise q => p = q
  | SlotFunction _ => False
  end ->
  loadDemangle p = inl e ->
  (let (w', t) := functions_loop w fr fns in resume loadDemangle w' t)
  = (mkWorld (SlotPromise p)
       (match demangle w with SlotUndefined => S (loads w) | _ => loads w end)
       (prototype_executed w),
     Thrown e).
Proof.
  induction fns as [|fn fns IH]; intros w fr p Hneeds Hslot Hload;
    [discriminate|].
  cbn [functions_loop]. cbn [needs_demangler existsb] in Hneeds.
  unfold nonempty in Hneeds.
  destruct (String.length (FunctionEntry.name fn) =? 0)%nat;
    [now apply IH|].
  destruct (regex_mangled (FunctionEntry.name fn)); [|now apply IH].
  destruct w as [[|q|g] n polluted]; cbn in *.
  - subst p. now rewrite Hload.
  - subst q. now rewrite Hload.
  - contradiction.
Qed.

(** With [flaky_loader] the first call fails with the rejection of the
    load; the second call fails with the same rejection and the load has
    still been run once only, although a second load would have
    succeeded. *)
Lemma load_failure_not_retried :
  snd (loadDetailedCoverage flaky_loader fresh_world (Some scenario_section))
  = Thrown (Reason "Cannot find module")
  /\ snd (loadDetailedCoverage flaky_loader
            (fst (loadDetailedCoverage flaky_loader fresh_world
                    (Some scenario_section)))
            (Some scenario_section))
     = Thrown (Reason "Cannot find module")
  /\ demangle (fst (loadDetailedCoverage flaky_loader
                      (fst (loadDetailedCoverage flaky_loader fresh_world
                              (Some scenario_section)))
                      (Some scenario_section)))
     = SlotPromise 0
  /\ loads (fst (loadDetailedCoverage flaky_loader
                   (fst (loadDetailedCoverage flaky_loader fresh_world
                           (Some scenario_section)))
                   (Some scenario_section)))
     = 1%nat
  /\ flaky_loader 1 = inr scenario_demangler.
Proof. repeat split; reflexivity. Qed.

(** C4, amended.  If the load of the demangler fails, the call that
    started it throws the failure, and the cache keeps the rejected promise:
    a later call that needs the demangler throws the same failure, and the
    load is not run again. *)
Theorem load_failure_surfaces_and_stays
    (loadDemangle : nat -> js_error + demangler) (w : world)
    (s1 s2 : SectionSummary.t) (e : js_error) :
  demangle w = SlotUndefined ->
  loadDemangle (loads w) = inl e ->
  branches_pass (prototype_executed w)
    (Summary.details (SectionSummary.branches s1)) = true ->
  needs_demangler (Summary.details (SectionSummary.functions s1)) = true ->
  branches_pass
    (prototype_executed (fst (loadDetailedCoverage loadDemangle w (Some s1))))
    (Summary.details (SectionSummary.branches s2)) = true ->
  needs_demangler (Summary.details (SectionSummary.functions s2)) = true ->
  snd (loadDetailedCoverage loadDemangle w (Some s1)) = Thrown e
  /\ demangle (fst (loadDetailedCoverage loadDemangle w (Some s1)))
     = SlotPromise (loads w)
  /\ loads (fst (loadDetailedCoverage loadDemangle w (Some s1))) = S (loads w)
  /\ snd (loadDetailedCoverage loadDemangle
            (fst (loadDetailedCoverage loadDemangle w (Some s1))) (Some s2))
     = Thrown e
  /\ demangle (fst (loadDetailedCoverage loadDemangle
                      (fst (loadDetailedCoverage loadDemangle w (Some s1)))
                      (Some s2)))
     = SlotPromise (loads w)
  /\ loads (fst (loadDetailedCoverage loadDemangle
                   (fst (loadDetailedCoverage loadDemangle w (Some s1)))
                   (Some s2)))
     = S (loads w).
Proof.
  intros Hslot Hload Hpass1 Hneeds1.
  assert (Hfirst : exists polluted,
            loadDetailedCoverage loadDemangle w (Some s1)
            = (mkWorld (SlotPromise (loads w)) (S (loads w)) polluted, Thrown e)).
  { unfold loadDetailedCoverage, start, branches_pass in *.
    destruct (branches_loop (prototype_executed w) ∅
                (Summary.details (SectionSummary.branches s1)))
      as [polluted [e'|m]]; [discriminate|].
    exists polluted.
    rewrite (functions_loop_rejected loadDemangle e _ _ _ (loads w) Hneeds1);
      cbn; rewrite ?Hslot; trivial. }
  destruct Hfirst as [polluted ->]. cbn [fst snd demangle loads prototype_executed].
  intros Hpass2 Hneeds2.
  assert (Hsecond : exists polluted',
            loadDetailedCoverage loadDemangle
              (mkWorld (SlotPromise (loads w)) (S (loads w)) polluted) (Some s2)
            = (mkWorld (SlotPromise (loads w)) (S (loads w)) polluted', Thrown e)).
  { unfold loadDetailedCoverage, start, branches_pass in *.
    cbn [demangle loads prototype_executed] in *.
    destruct (branches_loop polluted ∅
                (Summary.details (SectionSummary.branches s2)))
      as [polluted' [e'|m]]; [discriminate|].
    exists polluted'.
    now rewrite (functions_loop_rejected loadDemangle e _ _ _ (loads w) Hneeds2). }
  destruct Hsecond as [polluted' ->]. now repeat split.
Qed.

Lemma load_failure_surfaces_and_stays_witness :
  snd (loadDetailedCoverage flaky_loader fresh_world (Some scenario_section))
  = Thrown (Reason "Cannot find module")
  /\ demangle (fst (loadDetailedCoverage flaky_loader fresh_world
                      (Some scenario_section)))
     = SlotPromise (loads fresh_world)
  /\ loads (fst (loadDetailedCoverage flaky_loader fresh_world
                   (Some scenario_section)))
     = S (loads fresh_world)
  /\ snd (loadDetailedCoverage flaky_loader
            (fst (loadDetailedCoverage flaky_loader fresh_world
                    (Some scenario_section)))
            (Some orphan_section))
     = Thrown (Reason "Cannot find module")
  /\ demangle (fst (loadDetailedCoverage flaky_loader
                      (fst (loadDetailedCoverage flaky_loader fresh_world
                              (Some scenario_section)))
                      (Some orphan_section)))
     = SlotPromise (loads fresh_world)
  /\ loads (fst (loadDetailedCoverage flaky_loader
                   (fst (loadDetailedCoverage flaky_loader fresh_world
                           (Some scenario_section)))
                   (Some orphan_section)))
     = S (loads fresh_world).
Proof.
  apply (load_failure_surfaces_and_stays flaky_loader fresh_world
           scenario_section orphan_section (Reason "Cannot find module"));
    reflexivity.
Defined.

(* ================================================================== *)
(** * One load for a session *)

Section OneLoad.
Variable loadDemangle : nat -> js_error + demangler.

Lemma slot_ok_loads (w : world) : slot_ok loadDemangle w -> (loads w <= 1)%nat.
Proof.
  unfold slot_ok. destruct (demangle w); [intros -> | intros [_ ->] ..]; lia.
Qed.

Lemma functions_loop_ok (fns : list FunctionEntry.t) :
  forall (w : world) (fr : frame),
  slot_ok loadDemangle w ->
  Forall (from_first_load loadDemangle) (calls fr) ->
  slot_ok loadDemangle (fst (functions_loop w fr fns))
  /\ thread_ok loadDemangle (fst (functions_loop w fr fns))
       (snd (functions_loop w fr fns))
  /\ (loads w <= loads (fst (functions_loop w fr fns)))%nat.
Proof.
  induction fns as [|fn fns IH]; intros w fr Hw Hfr; cbn [functions_loop].
  - cbn. repeat split; trivial.
  - destruct (String.length (FunctionEntry.name fn) =? 0)%nat; [now apply IH|].
    destruct (regex_mangled (FunctionEntry.name fn)); [|now apply IH].
    unfold slot_ok in Hw.
    destruct (demangle w) as [|p|f] eqn:Hslot.
    + unfold slot_ok, thread_ok. cbn. rewrite Hw. repeat split; trivial. lia.
    + unfold slot_ok, thread_ok. cbn. rewrite Hslot. destruct Hw as [-> Hl].
      repeat split; trivial.
    + apply IH.
      * unfold slot_ok. now rewrite Hslot.
      * cbn. apply Forall_app. split; [assumption|].
        constructor; [|constructor]. exists f. now split.
Qed.

Lemma start_ok (w : world) (section : option SectionSummary.t) :
  slot_ok loadDemangle w ->
  slot_ok loadDemangle (fst (start w section))
  /\ thread_ok loadDemangle (fst (start w section)) (snd (start w section))
  /\ (loads w <= loads (fst (start w section)))%nat.
Proof.
  intros Hw. unfold start. destruct section as [section|].
  - destruct (branches_loop _ _ _) as [polluted [e|m]].
    + cbn. repeat split; trivial; constructor.
    + apply (functions_loop_ok _ (mkWorld (demangle w) (loads w) polluted));
        [exact Hw | constructor].
  - cbn. repeat split; trivial; constructor.
Qed.

Lemma resume_ok (w : world) (t : thread) :
  slot_ok loadDemangle w ->
  thread_ok loadDemangle w t ->
  slot_ok loadDemangle (fst (resume loadDemangle w t))
  /\ thread_ok loadDemangle (fst (resume loadDemangle w t))
       (snd (resume loadDemangle w t))
  /\ (loads w <= loads (fst (resume loadDemangle w t)))%nat.
Proof.
  intros Hw Ht. destruct t as [p fr fn rest|fr|e]; cbn [resume];
    try (cbn; repeat split; trivial; apply Ht).
  destruct Ht as [[-> Hl] Hcalls]. cbn in Hcalls.
  destruct (loadDemangle 0%nat) as [e|f] eqn:Hload.
  - cbn. repeat split; trivial; constructor.
  - apply (functions_loop_ok _
             (mkWorld (SlotFunction f) (loads w) (prototype_executed w))).
    + unfold slot_ok. cbn. now split.
    + cbn. apply Forall_app. split; [assumption|].
      constructor; [|constructor]. exists f. now split.
Qed.

(** A thread that was in order stays so when the world moves on. *)
Lemma thread_ok_later (w w' : world) (t : thread) :
  slot_ok loadDemangle w' ->
  (loads w <= loads w')%nat ->
  thread_ok loadDemangle w t -> thread_ok loadDemangle w' t.
Proof.
  intros Hw' Hle [Hp Hcalls]. split; [|assumption].
  destruct t; trivial. destruct Hp as [-> Hl]. split; [reflexivity|].
  pose proof (slot_ok_loads _ Hw'). lia.
Qed.

Lemma step_ok (s s' : session) :
  step loadDemangle s s' -> session_ok loadDemangle s -> session_ok loadDemangle s'.
Proof.
  intros Hstep [Hw Hts]. destruct Hstep as [s section|s i].
  - unfold call. pose proof (start_ok (shared s) section Hw) as (Hw' & Ht & Hle).
    destruct (start (shared s) section) as [w' t]. cbn [fst snd] in *.
    split; [assumption|]. cbn. apply Forall_app. split.
    + eapply Forall_impl; [exact Hts|]. intros t0. now apply thread_ok_later.
    + now constructor.
  - unfold take_up. destruct (threads s !! i) as [t|] eqn:Hi; [|now split].
    assert (Ht : thread_ok loadDemangle (shared s) t).
    { exact (Forall_lookup_1 _ _ _ _ Hts Hi). }
    pose proof (resume_ok (shared s) t Hw Ht) as (Hw' & Ht' & Hle).
    destruct (resume loadDemangle (shared s) t) as [w' t']. cbn [fst snd] in *.
    split; [assumption|]. cbn. apply Forall_insert; [|assumption].
    eapply Forall_impl; [exact Hts|]. intros t0. now apply thread_ok_later.
Qed.

Lemma reachable_ok (polluted : bool) (s : session) :
  rtc (step loadDemangle) (initial polluted) s -> session_ok loadDemangle s.
Proof.
  intros Hreach.
  assert (Hinit : session_ok loadDemangle (initial polluted)).
  { split; [reflexivity | constructor]. }
  revert Hinit. induction Hreach as [|s1 s2 s3 Hstep _ IH]; [trivial|].
  intros Hs1. apply IH. now apply (step_ok s1).
Qed.
End OneLoad.

(** C9.  In a session that starts with an empty cache, however the calls
    overlap, [loadDemangle] is called at most once; every call that awaits
    awaits the promise of that one load; the function in the cache, once
    there is one, is the function that load was fulfilled with, and every
    result of the demangler in every call comes from that function. *)
Theorem demangler_loaded_at_most_once
    (loadDemangle : nat -> js_error + demangler) (polluted : bool) (s : session) :
  rtc (step loadDemangle) (initial polluted) s ->
  (loads (shared s) <= 1)%nat
  /\ (forall f, demangle (shared s) = SlotFunction f -> loadDemangle 0%nat = inr f)
  /\ (forall p fr fn rest, In (Awaiting p fr fn rest) (threads s) -> p = 0%nat)
  /\ (forall t name result,
        In t (threads s) -> In (name, result) (calls_of t) ->
        exists f, loadDemangle 0%nat = inr f /\ result = f name).
Proof.
  intros Hreach. destruct (reachable_ok loadDemangle polluted s Hreach) as [Hw Hts].
  rewrite List.Forall_forall in Hts.
  split; [|split; [|split]].
  - now apply (slot_ok_loads loadDemangle).
  - intros f Hf. unfold slot_ok in Hw. rewrite Hf in Hw. apply Hw.
  - intros p fr fn rest Hin. now destruct (Hts _ Hin) as [[-> _] _].
  - intros t name result Hin Hcall. destruct (Hts _ Hin) as [_ Hcalls].
    rewrite List.Forall_forall in Hcalls. exact (Hcalls _ Hcall).
Qed.

Lemma demangler_loaded_at_most_once_witness :
  (loads (shared scenario_session) <= 1)%nat
  /\ (forall f, demangle (shared scenario_session) = SlotFunction f ->
                scenario_loader 0%nat = inr f)
  /\ (forall p fr fn rest,
        In (Awaiting p fr fn rest) (threads scenario_session) -> p = 0%nat)
  /\ (forall t name result,
        In t (threads scenario_session) -> In (name, result) (calls_of t) ->
        exists f, scenario_loader 0%nat = inr f /\ result = f name).
Proof.
  apply (demangler_loaded_at_most_once scenario_loader false scenario_session).
  unfold scenario_session.
  eapply rtc_l; [apply step_call|].
  eapply rtc_l; [apply step_call|].
  eapply rtc_l; [apply step_take_up|].
  eapply rtc_l; [apply step_take_up|].
  apply rtc_refl.
Defined.

(** Two calls that both reach a mangled name before the load is over: one
    load, and both return the demangled name. *)
Example overlapping_calls :
  loads (shared scenario_session) = 1%nat
  /\ List.map (fun t => match t with
                        | Returned fr => declared_names (details fr)
                        | _ => []
                        end) (threads scenario_session)
     = [["foo(int)"; "main"]; ["foo(int)"; "main"]]
  /\ List.map (fun t => match t with Awaiting p _ _ _ => Some p | _ => None end)
       (threads (call (call (initial false) (Some scenario_section))
                   (Some scenario_section)))
     = [Some 0%nat; Some 0%nat].
Proof. repeat split; reflexivity. Qed.

(* ================================================================== *)
(** * Merged branch records *)

Lemma set_set (o : object) (k : string) (v v' : vscode.BranchCoverage) :
  set (set o k v) k v' = set o k v'.
Proof.
  induction o as [|[k0 v0] o IH]; cbn.
  - now rewrite String.eqb_refl.
  - destruct (String.eqb k0 k) eqn:Hk; cbn; rewrite Hk; [reflexivity|].
    now rewrite IH.
Qed.

Lemma keys_set (o : object) (k : string) (v : vscode.BranchCoverage) :
  List.map fst (set o k v)
  = if has_key o k then List.map fst o else List.map fst o ++ [k].
Proof.
  unfold has_key. induction o as [|[k0 v0] o IH]; cbn; [reflexivity|].
  destruct (String.eqb k0 k); cbn; [reflexivity|]. rewrite IH.
  now destruct (own_property o k).
Qed.

Lemma has_key_set (o : object) (k k' : string) (v : vscode.BranchCoverage) :
  has_key (set o k v) k' = has_key o k' || String.eqb k k'.
Proof.
  unfold has_key. destruct (String.eqb_spec k k') as [<-|Hne].
  - rewrite own_property_set_eq. now destruct (own_property o k).
  - rewrite own_property_set_ne by assumption. now destruct (own_property o k').
Qed.

Lemma executed_of_set (o : object) (k k' : string) (v : vscode.BranchCoverage) :
  executed_of (set o k v) k'
  = if String.eqb k k' then vscode.executed v else executed_of o k'.
Proof.
  unfold executed_of. destruct (String.eqb_spec k k') as [<-|Hne].
  - now rewrite own_property_set_eq.
  - now rewrite own_property_set_ne.
Qed.

(** For an identifier that is not an inherited name, the body of the loop
    creates the record at 0 if there is none and adds the hit count. *)
Lemma own_merge_plain (o : object) (b : BranchEntry.t) :
  inherited (BranchEntry.branch b) = false ->
  own_merge o b
  = set o (BranchEntry.branch b)
      (add_executed
         (match own_property o (BranchEntry.branch b) with
          | Some c => c
          | None => new_branch b
          end)
         (BranchEntry.hit b)).
Proof.
  unfold inherited, own_merge, merge_branch, get. intros Hk.
  apply orb_false_iff in Hk. destruct Hk as [Hproto Hfun].
  destruct (own_property o (BranchEntry.branch b)) as [c|] eqn:Ho.
  - now rewrite Ho.
  - rewrite Hproto, Hfun, andb_false_r, own_property_set_eq. cbn.
    apply set_set.
Qed.

(** An inherited name leaves the own properties as they are. *)
Lemma own_merge_inherited (o : object) (b : BranchEntry.t) :
  inherited (BranchEntry.branch b) = true ->
  own_property o (BranchEntry.branch b) = None ->
  own_merge o b = o.
Proof.
  unfold inherited, own_merge, merge_branch, get. intros Hk Ho. rewrite Ho.
  destruct (String.eqb (BranchEntry.branch b) "__proto__"); [now rewrite Ho|].
  cbn [orb] in Hk. rewrite Hk. now rewrite Ho.
Qed.

Lemma filter_filter_and {A : Type} (P Q : A -> bool) (l : list A) :
  List.filter P (List.filter Q l) = List.filter (fun x => Q x && P x) l.
Proof.
  induction l as [|x l IH]; [reflexivity|]. cbn.
  destruct (Q x); cbn; [|assumption]. destruct (P x); now rewrite IH.
Qed.

Lemma keys_fold (bs : list BranchEntry.t) :
  (forall b, In b bs -> inherited (BranchEntry.branch b) = false) ->
  forall o,
  List.map fst (fold_left own_merge bs o)
  = List.map fst o
    ++ List.filter (fun k => negb (has_key o k))
         (distinct (List.map BranchEntry.branch bs)).
Proof.
  induction bs as [|b bs IH]; intros Hplain o.
  - cbn. now rewrite app_nil_r.
  - cbn [fold_left List.map distinct].
    rewrite IH by (intros b' Hin; apply Hplain; now right).
    rewrite (own_merge_plain o b) by (apply Hplain; now left).
    rewrite keys_set. cbn [List.filter].
    rewrite filter_filter_and.
    destruct (has_key o (BranchEntry.branch b)) eqn:Hkey; cbn [negb].
    + f_equal. apply filter_ext. intros k. rewrite has_key_set.
      destruct (String.eqb_spec (BranchEntry.branch b) k) as [<-|Hne].
      * now rewrite Hkey.
      * now rewrite orb_false_r.
    + rewrite <- app_assoc. cbn [app]. do 2 f_equal. apply filter_ext.
      intros k. rewrite has_key_set.
      now destruct (has_key o k), (String.eqb (BranchEntry.branch b) k).
Qed.

Lemma fold_add (hs : list N) (a : N) :
  fold_left N.add hs a = (a + fold_left N.add hs 0)%N.
Proof.
  revert a. induction hs as [|h hs IH]; intros a; cbn.
  - lia.
  - rewrite (IH (a + h)%N), (IH (0 + h)%N). lia.
Qed.

Lemma executed_fold (k : string) (bs : list BranchEntry.t) :
  (forall b, In b bs -> inherited (BranchEntry.branch b) = false) ->
  forall o,
  executed_of (fold_left own_merge bs o) k
  = (executed_of o k
     + fold_left N.add
         (List.map BranchEntry.hit
            (List.filter (fun b => String.eqb (BranchEntry.branch b) k) bs))
         0)%N.
Proof.
  induction bs as [|b bs IH]; intros Hplain o.
  - cbn. lia.
  - cbn [fold_left List.filter].
    rewrite IH by (intros b' Hin; apply Hplain; now right).
    rewrite (own_merge_plain o b) by (apply Hplain; now left).
    rewrite executed_of_set.
    destruct (String.eqb_spec (BranchEntry.branch b) k) as [<-|Hne].
    + cbn [List.map fold_left]. rewrite (fold_add _ (0 + _)%N).
      unfold executed_of.
      destruct (own_property o (BranchEntry.branch b)); cbn; lia.
    + reflexivity.
Qed.

Lemma in_set (o : object) (k k' : string) (v c : vscode.BranchCoverage) :
  In (k', c) (set o k v) -> (k', c) = (k, v) \/ In (k', c) o.
Proof.
  induction o as [|[k0 v0] o IH]; cbn.
  - intros [<-|[]]. now left.
  - destruct (String.eqb_spec k0 k) as [->|Hne]; cbn.
    + intros [<-|Hin]; [now left | right; now right].
    + intros [<-|Hin]; [right; now left|].
      destruct (IH Hin) as [?|?]; [now left | right; now right].
Qed.

Lemma own_property_in (o : object) (k : string) (c : vscode.BranchCoverage) :
  own_property o k = Some c -> In (k, c) o.
Proof.
  induction o as [|[k0 v0] o IH]; cbn; [discriminate|].
  destruct (String.eqb_spec k0 k) as [->|Hne].
  - intros [= ->]. now left.
  - intros H. right. now apply IH.
Qed.

Lemma in_own_property (o : object) (k : string) (c : vscode.BranchCoverage) :
  List.NoDup (List.map fst o) -> In (k, c) o -> own_property o k = Some c.
Proof.
  induction o as [|[k0 v0] o IH]; cbn; [intros _ []|].
  intros Hnd [[= -> ->]|Hin].
  - now rewrite String.eqb_refl.
  - inversion Hnd as [|? ? Hnotin Hnd']; subst.
    destruct (String.eqb_spec k0 k) as [->|Hne]; [|now apply IH].
    exfalso. apply Hnotin. change k with (fst (k, c)). now apply in_map.
Qed.

Lemma well_placed_fold (line : positive) (bs : list BranchEntry.t) :
  (forall b, In b bs ->
     BranchEntry.line b = line /\ inherited (BranchEntry.branch b) = false) ->
  forall o, well_placed line o -> well_placed line (fold_left own_merge bs o).
Proof.
  induction bs as [|b bs IH]; intros Hbs o Ho; [assumption|].
  cbn [fold_left]. apply IH; [intros b' Hin; apply Hbs; now right|].
  destruct (Hbs b (or_introl eq_refl)) as [Hline Hplain].
  rewrite (own_merge_plain o b Hplain). intros k c Hin.
  destruct (in_set _ _ _ _ _ Hin) as [[= -> ->]|Hold]; [|now apply Ho].
  destruct (own_property o (BranchEntry.branch b)) as [c0|] eqn:Hown; cbn.
  - apply Ho. now apply own_property_in.
  - now rewrite Hline.
Qed.

Lemma insert_index_permutation (i : N) (v : vscode.BranchCoverage)
    (sorted : list (N * vscode.BranchCoverage)) :
  Permutation (insert_index i v sorted) ((i, v) :: sorted).
Proof.
  induction sorted as [|[j w] sorted IH]; cbn; [apply Permutation_refl|].
  destruct (i <=? j)%N; [apply Permutation_refl|].
  eapply Permutation_trans; [apply perm_skip, IH | apply perm_swap].
Qed.

(** [Object.values] lists every own property once. *)
Lemma Object_values_permutation (o : object) :
  Permutation (Object_values o) (List.map snd o).
Proof.
  unfold Object_values. induction o as [|[k v] o IH]; cbn; [constructor|].
  destruct (array_index k) as [i|].
  - eapply Permutation_trans;
      [apply Permutation_app_tail, Permutation_map, insert_index_permutation|].
    cbn. now apply perm_skip.
  - eapply Permutation_trans; [apply Permutation_sym, Permutation_middle|].
    now apply perm_skip.
Qed.

Lemma distinct_in (ks : list string) (k : string) :
  In k (distinct ks) <-> In k ks.
Proof.
  induction ks as [|k0 ks IH]; cbn; [reflexivity|].
  rewrite filter_In, IH. destruct (String.eqb_spec k0 k) as [->|Hne]; cbn.
  - split; [intros [?|[? ?]] | intros _]; now left.
  - split; [intros [?|[? _]] | intros [?|?]]; tauto.
Qed.

Lemma distinct_NoDup (ks : list string) : List.NoDup (distinct ks).
Proof.
  induction ks as [|k ks IH]; cbn; constructor.
  - rewrite filter_In, String.eqb_refl. now intros [_ ?].
  - now apply List.NoDup_filter.
Qed.

Lemma filter_true {A : Type} (l : list A) : List.filter (fun _ => true) l = l.
Proof. induction l as [|x l IH]; [reflexivity|]. cbn. now rewrite IH. Qed.

(** The records of a line whose identifiers are none of the inherited
    names: one record per distinct identifier, in the order the identifiers
    first appear among the own properties, each with the sum of the hit
    counts of its identifier and at the position of the line. *)
Lemma branch_group_merged (bs : list BranchEntry.t) (line : positive) :
  (forall b, In b bs -> BranchEntry.line b = line ->
     inherited (BranchEntry.branch b) = false) ->
  List.map fst (branch_group bs line) = identifiers bs line
  /\ well_placed line (branch_group bs line)
  /\ (forall k, executed_of (branch_group bs line) k = hits bs line k).
Proof.
  intros Hplain.
  assert (Hon : forall b, In b (List.filter (on_line line) bs) ->
            BranchEntry.line b = line /\ inherited (BranchEntry.branch b) = false).
  { intros b Hin. apply filter_In in Hin. destruct Hin as [Hin Hl].
    apply Pos.eqb_eq in Hl. split; [assumption | now apply Hplain]. }
  unfold branch_group, identifiers, hits. split; [|split].
  - rewrite keys_fold by (intros b Hin; now apply Hon). cbn [List.map app].
    apply filter_true.
  - apply well_placed_fold; [assumption | intros k c []].
  - intros k. rewrite executed_fold by (intros b Hin; now apply Hon).
    cbn. now rewrite filter_filter_and.
Qed.

(** X7.  What holds of the records attached to a line when none of the
    identifiers on that line is an inherited name: one record per distinct
    identifier, carrying the sum of the hit counts of the raw records with
    that line and identifier, at the position of the line. *)
Lemma branch_records_merge (bs : list BranchEntry.t) (line : positive) :
  (forall b, In b bs -> BranchEntry.line b = line ->
     inherited (BranchEntry.branch b) = false) ->
  Permutation (List.map vscode.label (Object_values (branch_group bs line)))
              (identifiers bs line)
  /\ List.NoDup (identifiers bs line)
  /\ length (Object_values (branch_group bs line))
     = length (identifiers bs line)
  /\ (forall c, In c (Object_values (branch_group bs line)) ->
        vscode.executed c = hits bs line (vscode.label c)
        /\ vscode.location c = vscode.mkPosition (N.pos line - 1) 0).
Proof.
  intros Hplain.
  destruct (branch_group_merged bs line Hplain) as (Hkeys & Hplaced & Hsum).
  pose proof (Object_values_permutation (branch_group bs line)) as Hperm.
  assert (Hlabels : List.map vscode.label (List.map snd (branch_group bs line))
                    = List.map fst (branch_group bs line)).
  { rewrite map_map. apply map_ext_in. intros [k c] Hin. cbn.
    now destruct (Hplaced k c Hin). }
  split; [|split; [|split]].
  - rewrite <- Hkeys, <- Hlabels. now apply Permutation_map.
  - apply distinct_NoDup.
  - rewrite (Permutation_length Hperm), <- Hkeys. now rewrite !length_map.
  - intros c Hin. apply (Permutation_in _ Hperm), in_map_iff in Hin.
    destruct Hin as ([k c'] & Hc & Hin). cbn in Hc. subst c'.
    destruct (Hplaced k c Hin) as [Hlabel Hloc]. rewrite Hlabel, Hloc, <- rebase.
    split; [|reflexivity]. rewrite <- Hsum. unfold executed_of.
    rewrite (in_own_property _ k c); [reflexivity | | assumption].
    rewrite Hkeys. apply distinct_NoDup.
Qed.

(** C1.  Every distinct (line, identifier) pair of the branch records is to
    give one branch record with the sum of the pair's hit counts, as many
    records on a line as identifiers observed there.  On a section whose
    line 10 has the identifiers [constructor] and [0], with hit counts 1 and
    2, the call attaches one record to the line, that of [0]: for
    [constructor] line 132 finds the function every object inherits under
    that name, creates no record, and line 137 adds the hit count to that
    function. *)
Theorem inherited_identifier_gives_no_record :
  snd (loadDetailedCoverage scenario_loader fresh_world (Some constructor_section))
  = Returned
      (mkFrame
         [ vscode.StatementCoverage 3 (vscode.mkPosition 9 0)
             [ vscode.mkBranchCoverage 2 (vscode.mkPosition 9 0) "0" ] ]
         [])
  /\ identifiers (Summary.details (SectionSummary.branches constructor_section)) 10
     = ["constructor"; "0"]
  /\ hits (Summary.details (SectionSummary.branches constructor_section)) 10
       "constructor"
     = 1%N.
Proof. repeat split; reflexivity. Qed.

(* ================================================================== *)
(** * The items of a run *)

Lemma existsb_same_item (item : TestItem) (items : list TestItem) :
  existsb (same_item item) items = true <-> In (ref item) (List.map ref items).
Proof.
  rewrite existsb_exists, in_map_iff. unfold same_item. split.
  - intros (other & Hin & Heq). apply Nat.eqb_eq in Heq. now exists other.
  - intros (other & Heq & Hin). exists other. split; [assumption|].
    now apply Nat.eqb_eq.
Qed.

Lemma Set_add_refs (items : list TestItem) (item : TestItem) (r : nat) :
  In r (List.map ref (Set_add items item))
  <-> In r (List.map ref items) \/ r = ref item.
Proof.
  unfold Set_add. destruct (existsb (same_item item) items) eqn:Hin.
  - apply existsb_same_item in Hin. split; [now left|].
    intros [?| ->]; assumption.
  - rewrite map_app, in_app_iff. cbn. intuition congruence.
Qed.

Lemma Set_add_NoDup (items : list TestItem) (item : TestItem) :
  List.NoDup (List.map ref items) ->
  List.NoDup (List.map ref (Set_add items item)).
Proof.
  intros Hnd. unfold Set_add.
  destruct (existsb (same_item item) items) eqn:Hin; [assumption|].
  rewrite map_app. cbn. apply List.NoDup_app.
  - assumption.
  - repeat constructor. intros [].
  - intros r Hr [<-|[]]. apply existsb_same_item in Hr. congruence.
Qed.

Lemma fold_Set_add_refs (added items : list TestItem) (r : nat) :
  In r (List.map ref (fold_left Set_add added items))
  <-> In r (List.map ref items) \/ In r (List.map ref added).
Proof.
  revert items. induction added as [|item added IH]; intros items; cbn.
  - tauto.
  - rewrite IH, Set_add_refs. intuition congruence.
Qed.

Lemma fold_Set_add_NoDup (added items : list TestItem) :
  List.NoDup (List.map ref items) ->
  List.NoDup (List.map ref (fold_left Set_add added items)).
Proof.
  revert items. induction added as [|item added IH]; intros items Hnd; cbn.
  - assumption.
  - now apply IH, Set_add_NoDup.
Qed.

Lemma Set_delete_refs (items : list TestItem) (item : TestItem) (r : nat) :
  In r (List.map ref (Set_delete items item))
  <-> In r (List.map ref items) /\ r <> ref item.
Proof.
  unfold Set_delete, same_item. rewrite !in_map_iff. split.
  - intros (other & <- & Hin). apply filter_In in Hin. destruct Hin as [Hin Hne].
    apply negb_true_iff, Nat.eqb_neq in Hne. split; [now exists other | congruence].
  - intros [(other & <- & Hin) Hne]. exists other. split; [reflexivity|].
    apply filter_In. split; [assumption|].
    apply negb_true_iff, Nat.eqb_neq. congruence.
Qed.

Lemma map_filter_NoDup {A B : Type} (f : A -> B) (P : A -> bool) (l : list A) :
  List.NoDup (List.map f l) -> List.NoDup (List.map f (List.filter P l)).
Proof.
  induction l as [|x l IH]; cbn; [trivial|]. intros Hnd.
  inversion Hnd as [|? ? Hnotin Hnd']; subst. destruct (P x); cbn.
  - constructor; [|now apply IH]. intros Hin. apply Hnotin.
    apply in_map_iff in Hin. destruct Hin as (y & <- & Hy).
    apply filter_In in Hy. now apply in_map.
  - now apply IH.
Qed.

Lemma fold_Set_delete_refs (deleted items : list TestItem) (r : nat) :
  In r (List.map ref (fold_left Set_delete deleted items))
  <-> In r (List.map ref items) /\ ~ In r (List.map ref deleted).
Proof.
  revert items. induction deleted as [|item deleted IH]; intros items; cbn.
  - tauto.
  - rewrite IH, Set_delete_refs. intuition congruence.
Qed.

Lemma fold_Set_delete_NoDup (deleted items : list TestItem) :
  List.NoDup (List.map ref items) ->
  List.NoDup (List.map ref (fold_left Set_delete deleted items)).
Proof.
  revert items. induction deleted as [|item deleted IH]; intros items Hnd; cbn.
  - assumption.
  - apply IH. now apply map_filter_NoDup.
Qed.

Lemma new_Set_empty (include : option (list TestItem)) :
  (length (new_Set include) =? 0)%nat
  = match default [] include with [] => true | _ => false end.
Proof.
  unfold new_Set. destruct (default [] include) as [|item others] eqn:Hinc.
  - reflexivity.
  - destruct (fold_left Set_add (item :: others) []) as [|x l] eqn:Hfold;
      [|reflexivity].
    exfalso.
    assert (Hin : In (ref item) (List.map ref (fold_left Set_add (item :: others) []))).
    { apply fold_Set_add_refs. right. now left. }
    now rewrite Hfold in Hin.
Qed.

(** X1.  The items a run works on are, each once, the included items that
    are not excluded; when no item is included (no [include], or an empty
    one) they are the controller's items that are not excluded.  The items
    of the controller play no part once one item is included, even if the
    exclusions then leave nothing. *)
Theorem run_items_are_requested_minus_excluded
    (include exclude : option (list TestItem))
    (controller_items : list TestItem) :
  List.NoDup (List.map ref (run_items include exclude controller_items))
  /\ (forall r,
        In r (List.map ref (run_items include exclude controller_items))
        <-> In r (List.map ref (requested include controller_items))
            /\ ~ In r (List.map ref (default [] exclude))).
Proof.
  unfold run_items, requested. rewrite new_Set_empty. split.
  - apply fold_Set_delete_NoDup.
    destruct (default [] include) as [|item others] eqn:Hinc.
    + apply fold_Set_add_NoDup. unfold new_Set. rewrite Hinc. constructor.
    + unfold new_Set. apply fold_Set_add_NoDup. constructor.
  - intros r. rewrite fold_Set_delete_refs.
    destruct (default [] include) as [|item others] eqn:Hinc.
    + rewrite fold_Set_add_refs. unfold new_Set. rewrite Hinc. cbn. tauto.
    + unfold new_Set. rewrite Hinc, fold_Set_add_refs. cbn. tauto.
Qed.

Example run_items_examples :
  List.map ref (run_items None None [mkTestItem 1 "a"; mkTestItem 2 "b"]) = [1; 2]%nat
  /\ List.map ref (run_items (Some []) (Some [mkTestItem 2 "b"])
                     [mkTestItem 1 "a"; mkTestItem 2 "b"]) = [1]%nat
  /\ List.map ref (run_items (Some [mkTestItem 2 "b"; mkTestItem 2 "b"])
                     (Some [mkTestItem 2 "b"])
                     [mkTestItem 1 "a"; mkTestItem 2 "b"]) = [].
Proof. repeat split; reflexivity. Qed.

(* ================================================================== *)
(** * More on the batch *)

Lemma nth_error_task (parseLcov : string -> js_error + list SectionSummary.t)
    (workspaceFolders : list vscode.WorkspaceFolder) (items : list report)
    (P : task_result -> Prop) :
  (forall item, In item items -> P (task parseLcov workspaceFolders item)) ->
  forall completion r,
  In r (finished parseLcov workspaceFolders items completion) -> P r.
Proof.
  intros HP completion r Hin. unfold finished in Hin.
  apply in_flat_map in Hin. destruct Hin as (i & _ & Hin).
  destruct (nth_error items i) as [item|] eqn:Hi; [|contradiction].
  destruct Hin as [<-|[]]. apply HP. eapply nth_error_In. exact Hi.
Qed.

(** X2.  Whatever has finished, and whether or not some task has failed:
    what the run has been given is, task after task in the order the tasks
    finish, the summaries of the sections of the task's file in the order
    of the parser, and nothing for a file that could not be read or
    parsed.  (No task cancelled.) *)
Theorem batch_publishes_in_completion_order
    (parseLcov : string -> js_error + list SectionSummary.t)
    (workspaceFolders : list vscode.WorkspaceFolder)
    (items : list report) (completion : list nat) :
  forallb not_cancelled items = true ->
  addCoverage (collectRunData parseLcov workspaceFolders items completion)
  = flat_map
      (fun i => match nth_error items i with
                | Some item => summaries workspaceFolders (parsed parseLcov item)
                | None => []
                end)
      completion.
Proof.
  intros Hcancel. cbn [addCoverage collectRunData]. unfold finished.
  induction completion as [|i completion IH]; [reflexivity|].
  cbn [flat_map]. rewrite flat_map_app, IH. f_equal.
  destruct (nth_error items i) as [item|] eqn:Hi; [|reflexivity].
  cbn [flat_map]. rewrite app_nil_r, task_not_cancelled; [reflexivity|].
  rewrite forallb_forall in Hcancel. apply Hcancel.
  eapply nth_error_In. exact Hi.
Qed.

Lemma batch_publishes_in_completion_order_witness :
  addCoverage (collectRunData scenario_4_parser scenario_4_folders
                 scenario_4_items [1; 0]%nat)
  = flat_map
      (fun i => match nth_error scenario_4_items i with
                | Some item =>
                    summaries scenario_4_folders (parsed scenario_4_parser item)
                | None => []
                end)
      [1; 0]%nat.
Proof.
  apply (batch_publishes_in_completion_order scenario_4_parser
           scenario_4_folders scenario_4_items [1; 0]%nat).
  reflexivity.
Defined.

(** X3.  A run whose token is cancelled by the time each of its files has
    been read gives the run nothing and ends it in the normal way: the
    parser is not asked, so a file it would reject does not fail the
    batch. *)
Theorem cancelled_batch_publishes_nothing
    (parseLcov : string -> js_error + list SectionSummary.t)
    (workspaceFolders : list vscode.WorkspaceFolder)
    (items : list report) (completion : list nat) :
  (forall item, In item items ->
     cancelled_after_read item = true
     /\ exists contents, readFile item = inr contents) ->
  Permutation completion (seq 0 (length items)) ->
  collectRunData parseLcov workspaceFolders items completion
  = mkRunResult [] Resolved true.
Proof.
  intros Hitems Hperm.
  assert (Htask : forall r,
            In r (finished parseLcov workspaceFolders items completion) ->
            r = mkTaskResult [] None).
  { apply nth_error_task. intros item Hin.
    destruct (Hitems item Hin) as (Hc & contents & Hread).
    unfold task. now rewrite Hread, Hc. }
  unfold collectRunData, promise_all.
  replace (first_rejection (finished parseLcov workspaceFolders items completion))
    with (@None js_error).
  - rewrite (all_finished_permutation items completion Hperm). f_equal.
    induction (finished parseLcov workspaceFolders items completion)
      as [|r results IH]; [reflexivity|].
    cbn [flat_map]. rewrite (Htask r (or_introl eq_refl)). cbn.
    apply IH. intros r' Hin. apply Htask. now right.
  - symmetry. apply first_rejection_none. intros r Hin.
    now rewrite (Htask r Hin).
Qed.

Lemma cancelled_batch_publishes_nothing_witness :
  collectRunData scenario_4_parser scenario_4_folders cancelled_items [1; 0]%nat
  = mkRunResult [] Resolved true.
Proof.
  apply (cancelled_batch_publishes_nothing scenario_4_parser scenario_4_folders
           cancelled_items [1; 0]%nat).
  - intros item [<-|[<-|[]]]; (split; [reflexivity | eexists; reflexivity]).
  - apply perm_swap.
Defined.

(* ================================================================== *)
(** * More on path resolution *)

Lemma startsWith_split (s p : string) :
  startsWith s p = true -> s = String.append p (substring s (String.length p)).
Proof.
  revert s. induction p as [|c p IH]; intros s; [reflexivity|].
  destruct s as [|d s]; cbn; [discriminate|].
  destruct (Ascii.eqb_spec c d) as [->|]; [|discriminate].
  intros H. change (String.append (String d p) (substring s (String.length p)))
    with (String d (String.append p (substring s (String.length p)))).
  now rewrite <- IH.
Qed.

Lemma append_separator (p rest : string) :
  String.append (String.append p "/") rest = String.append p (String "/" rest).
Proof.
  induction p as [|c p IH]; [reflexivity|].
  change (String.append (String.append (String c p) "/") rest)
    with (String c (String.append (String.append p "/") rest)).
  now rewrite IH.
Qed.

(** The segment joined to the folder taken is the section path from one
    character past the folder's path. *)
Lemma resolve_path_segment (workspaceFolders : list vscode.WorkspaceFolder)
    (section_path : string) (folder : vscode.WorkspaceFolder) (segment : string) :
  resolve_path workspaceFolders section_path
  = Some (vscode.Uri_joinPath folder segment) ->
  segment = substring section_path (String.length (vscode.fsPath folder) + 1).
Proof.
  induction workspaceFolders as [|first others IH]; cbn [resolve_path];
    [discriminate|].
  destruct (startsWith section_path (vscode.fsPath first)); [|exact IH].
  now intros [= -> ->].
Qed.

(** X5.  The folder taken is the first, in the order of the workspace,
    whose path starts the section path; folders after it are not looked at,
    and the segment joined to it is the section path without the folder's
    path and one more character.  When no folder's path starts the section
    path, no folder is taken. *)
Theorem resolve_path_takes_first_match
    (workspaceFolders : list vscode.WorkspaceFolder) (section_path : string) :
  match resolve_path workspaceFolders section_path with
  | Some path =>
      exists before folder after,
        workspaceFolders = before ++ folder :: after
        /\ (forall other, In other before ->
              startsWith section_path (vscode.fsPath other) = false)
        /\ startsWith section_path (vscode.fsPath folder) = true
        /\ path = vscode.Uri_joinPath folder
                    (substring section_path
                       (String.length (vscode.fsPath folder) + 1))
  | None =>
      forall folder, In folder workspaceFolders ->
        startsWith section_path (vscode.fsPath folder) = false
  end.
Proof.
  induction workspaceFolders as [|folder others IH]; cbn [resolve_path].
  - intros folder [].
  - destruct (startsWith section_path (vscode.fsPath folder)) eqn:Hp.
    + exists [], folder, others. repeat split; trivial. intros other [].
    + destruct (resolve_path others section_path) as [path|].
      * destruct IH as (before & taken & after & -> & Hbefore & Htaken & ->).
        exists (folder :: before), taken, after. repeat split; trivial.
        intros other [<-|Hin]; [assumption | now apply Hbefore].
      * intros other [<-|Hin]; [assumption | now apply IH].
Qed.

(** X4.  When the folder taken is followed in the section path by a
    separator, the folder's path, a separator and the joined segment spell
    the section path again: nothing of the path is lost or repeated. *)
Theorem resolved_path_spells_section_path
    (workspaceFolders : list vscode.WorkspaceFolder) (section_path : string)
    (folder : vscode.WorkspaceFolder) (segment : string) :
  resolve_path workspaceFolders section_path
  = Some (vscode.Uri_joinPath folder segment) ->
  segment_prefix (vscode.fsPath folder) section_path = true ->
  String.append (vscode.fsPath folder) (String "/" segment) = section_path.
Proof.
  intros Hres Hseg.
  rewrite (resolve_path_segment _ _ _ _ Hres).
  unfold segment_prefix in Hseg. apply startsWith_split in Hseg.
  rewrite length_app_separator, append_separator in Hseg. now symmetry.
Qed.

Lemma resolved_path_spells_section_path_witness :
  String.append
    (vscode.fsPath (vscode.mkWorkspaceFolder "/ws/b")) (String "/" "src/x.c")
  = "/ws/b/src/x.c".
Proof.
  apply (resolved_path_spells_section_path
           [vscode.mkWorkspaceFolder "/ws/a"; vscode.mkWorkspaceFolder "/ws/b"]
           "/ws/b/src/x.c" (vscode.mkWorkspaceFolder "/ws/b") "src/x.c");
    reflexivity.
Defined.

(* ================================================================== *)
(** * More on the mangled-symbol pattern *)

(** X6.  The test of line 159 accepts a name exactly when the name is one,
    two or three underscores, then [Z], then anything: a name with four or
    more leading underscores, or with anything before them, is used as it
    is. *)
Theorem mangled_pattern_accepts (name : string) :
  regex_mangled name = true
  <-> exists n rest,
        (1 <= n <= 3)%nat
        /\ name = String.append (underscores n) (String "Z" rest).
Proof.
  split.
  - intros H.
    destruct name as [|c1 name]; [discriminate|].
    destruct c1 as [[|] [|] [|] [|] [|] [|] [|] [|]]; try discriminate H.
    destruct name as [|c2 name]; [discriminate|].
    destruct c2 as [[|] [|] [|] [|] [|] [|] [|] [|]]; try discriminate H;
      try (exists 1%nat, name; split; [lia | reflexivity]).
    destruct name as [|c3 name]; [discriminate|].
    destruct c3 as [[|] [|] [|] [|] [|] [|] [|] [|]]; try discriminate H;
      try (exists 2%nat, name; split; [lia | reflexivity]).
    destruct name as [|c4 name]; [discriminate|].
    destruct c4 as [[|] [|] [|] [|] [|] [|] [|] [|]]; try discriminate H.
    exists 3%nat, name. split; [lia | reflexivity].
  - intros (n & rest & [Hlow Hhigh] & ->).
    destruct n as [|[|[|[|n]]]]; try lia; reflexivity.
Qed.

(* ================================================================== *)
(** * More on the merged branch records *)

Lemma branch_records_merge_witness :
  Permutation
    (List.map vscode.label
       (Object_values
          (branch_group
             (Summary.details (SectionSummary.branches scenario_section)) 10)))
    (identifiers (Summary.details (SectionSummary.branches scenario_section)) 10)
  /\ List.NoDup
       (identifiers (Summary.details (SectionSummary.branches scenario_section)) 10)
  /\ length
       (Object_values
          (branch_group
             (Summary.details (SectionSummary.branches scenario_section)) 10))
     = length
         (identifiers
            (Summary.details (SectionSummary.branches scenario_section)) 10)
  /\ (forall c,
        In c (Object_values
                (branch_group
                   (Summary.details (SectionSummary.branches scenario_section))
                   10)) ->
        vscode.executed c
        = hits (Summary.details (SectionSummary.branches scenario_section)) 10
            (vscode.label c)
        /\ vscode.location c = vscode.mkPosition (N.pos 10 - 1) 0).
Proof.
  apply (branch_records_merge
           (Summary.details (SectionSummary.branches scenario_section)) 10).
  intros b [<-|[<-|[<-|[]]]] _; reflexivity.
Defined.

(** A name that is an array index is none of the inherited names. *)
Lemma array_index_not_inherited (k : string) :
  array_index k <> None -> inherited k = false.
Proof.
  intros Hindex. destruct (inherited k) eqn:Hk; [|reflexivity].
  exfalso. apply Hindex. unfold inherited in Hk.
  apply orb_true_iff in Hk. destruct Hk as [Hk|Hk];
    [apply String.eqb_eq in Hk; now subst|].
  cbn [existsb object_prototype_functions] in Hk.
  repeat (apply orb_true_iff in Hk; destruct Hk as [Hk|Hk];
          [apply String.eqb_eq in Hk; now subst|]).
  discriminate.
Qed.

Lemma insert_index_in (i : N) (v : vscode.BranchCoverage)
    (sorted : list (N * vscode.BranchCoverage)) (x : N * vscode.BranchCoverage) :
  In x (insert_index i v sorted) <-> x = (i, v) \/ In x sorted.
Proof.
  split.
  - intros Hin. apply (Permutation_in _ (insert_index_permutation i v sorted)) in Hin.
    destruct Hin as [<-|?]; [now left | now right].
  - intros Hin.
    apply (Permutation_in _ (Permutation_sym (insert_index_permutation i v sorted))).
    destruct Hin as [->|?]; [now left | now right].
Qed.

Lemma insert_index_sorted (i : N) (v : vscode.BranchCoverage)
    (sorted : list (N * vscode.BranchCoverage)) :
  Sorted N.le (List.map fst sorted) ->
  Sorted N.le (List.map fst (insert_index i v sorted)).
Proof.
  induction sorted as [|[j w] sorted IH]; cbn; intros Hs.
  - repeat constructor.
  - destruct (N.leb_spec i j) as [Hle|Hgt]; cbn.
    + constructor; [assumption | now constructor].
    + apply Sorted_inv in Hs. destruct Hs as [Hs Hhd].
      constructor; [now apply IH|].
      destruct sorted as [|[j' w'] sorted]; cbn.
      * constructor. lia.
      * destruct (i <=? j')%N; cbn; constructor; [lia|].
        now inversion Hhd.
Qed.

Lemma index_properties_sorted (o : object) :
  Sorted N.le (List.map fst (index_properties o)).
Proof.
  induction o as [|[k v] o IH]; cbn; [constructor|].
  destruct (array_index k); [now apply insert_index_sorted | assumption].
Qed.

Lemma index_properties_in (o : object) (i : N) (v : vscode.BranchCoverage) :
  In (i, v) (index_properties o) ->
  exists k, In (k, v) o /\ array_index k = Some i.
Proof.
  induction o as [|[k w] o IH]; cbn; [intros []|].
  destruct (array_index k) as [j|] eqn:Hk.
  - rewrite insert_index_in. intros [[= -> ->]|Hin].
    + exists k. split; [now left | assumption].
    + destruct (IH Hin) as (k' & Hin' & Hk'). exists k'. split; [now right | assumption].
  - intros Hin. destruct (IH Hin) as (k' & Hin' & Hk').
    exists k'. split; [now right | assumption].
Qed.

Lemma named_properties_none (o : object) :
  (forall k, In k (List.map fst o) -> array_index k <> None) ->
  named_properties o = [].
Proof.
  induction o as [|[k v] o IH]; cbn; [reflexivity|]. intros Hall.
  destruct (array_index k) eqn:Hk.
  - apply IH. intros k' Hin. apply Hall. now right.
  - exfalso. apply (Hall k); [now left | assumption].
Qed.

(** X8.  When the branch identifiers of a line are numbers written in the
    usual way (array indices), the records attached to the line come in
    ascending order of those numbers, whatever the order of the branch
    records: [Object.values] lists such properties first and by number. *)
Theorem numeric_identifiers_ascending (bs : list BranchEntry.t) (line : positive) :
  (forall b, In b bs -> BranchEntry.line b = line ->
     array_index (BranchEntry.branch b) <> None) ->
  exists numbers,
    List.map (fun c => array_index (vscode.label c))
      (Object_values (branch_group bs line))
    = List.map Some numbers
    /\ Sorted N.le numbers.
Proof.
  intros Hnumeric.
  destruct (branch_group_merged bs line) as (Hkeys & Hplaced & _).
  { intros b Hin Hline. apply array_index_not_inherited. now apply Hnumeric. }
  assert (Hall : forall k, In k (List.map fst (branch_group bs line)) ->
            array_index k <> None).
  { intros k Hin. rewrite Hkeys in Hin. unfold identifiers in Hin.
    apply distinct_in, in_map_iff in Hin. destruct Hin as (b & <- & Hin).
    apply filter_In in Hin. destruct Hin as [Hin Hline].
    apply Hnumeric; [assumption | now apply Pos.eqb_eq]. }
  exists (List.map fst (index_properties (branch_group bs line))). split.
  - unfold Object_values. rewrite (named_properties_none _ Hall), app_nil_r.
    rewrite !map_map. apply map_ext_in. intros [i v] Hin. cbn.
    destruct (index_properties_in _ _ _ Hin) as (k & Hk & Hi).
    destruct (Hplaced k v Hk) as [-> _]. assumption.
  - apply index_properties_sorted.
Qed.

Lemma numeric_identifiers_ascending_witness :
  exists numbers,
    List.map (fun c => array_index (vscode.label c))
      (Object_values
         (branch_group
            [BranchEntry.mk 10 "10" 1; BranchEntry.mk 10 "9" 2;
             BranchEntry.mk 10 "10" 4; BranchEntry.mk 10 "0" 0] 10))
    = List.map Some numbers
    /\ Sorted N.le numbers.
Proof.
  apply (numeric_identifiers_ascending
           [BranchEntry.mk 10 "10" 1; BranchEntry.mk 10 "9" 2;
            BranchEntry.mk 10 "10" 4; BranchEntry.mk 10 "0" 0] 10).
  intros b [<-|[<-|[<-|[<-|[]]]]] _; discriminate.
Defined.

Example numeric_identifiers_example :
  List.map (fun c => (vscode.label c, vscode.executed c))
    (Object_values
       (branch_group
          [BranchEntry.mk 10 "10" 1; BranchEntry.mk 10 "9" 2;
           BranchEntry.mk 10 "10" 4; BranchEntry.mk 10 "0" 0] 10))
  = [("0", 0%N); ("9", 2%N); ("10", 5%N)].
Proof. reflexivity. Qed.

(* ================================================================== *)
(** * More on the demangler cache *)

Lemma no_need_no_calls (f : demangler) (fns : list FunctionEntry.t) :
  needs_demangler fns = false -> demangled f fns = [].
Proof.
  unfold needs_demangler, demangled. induction fns as [|fn fns IH]; cbn;
    [reflexivity|].
  intros H. apply orb_false_iff in H. destruct H as [Hfn Hrest].
  rewrite <- regex_mangled_spec.
  destruct (regex_mangled (FunctionEntry.name fn)) eqn:Hm; [|now apply IH].
  exfalso. unfold nonempty in Hfn. rewrite andb_true_r in Hfn.
  apply negb_false_iff in Hfn. apply empty_not_mangled in Hfn.
  rewrite <- regex_mangled_spec in Hfn. congruence.
Qed.

(** X9.  The demangler is loaded lazily: a call on a section none of whose
    function names needs it returns without calling [loadDemangle] and
    without calling a demangler, and leaves the cache as it was, also when
    the load would fail. *)
Theorem no_mangled_name_no_load
    (loadDemangle : nat -> js_error + demangler) (w : world)
    (s : SectionSummary.t) :
  branches_pass (prototype_executed w)
    (Summary.details (SectionSummary.branches s)) = true ->
  needs_demangler (Summary.details (SectionSummary.functions s)) = false ->
  exists fr,
    snd (loadDetailedCoverage loadDemangle w (Some s)) = Returned fr
    /\ calls fr = []
    /\ demangle (fst (loadDetailedCoverage loadDemangle w (Some s))) = demangle w
    /\ loads (fst (loadDetailedCoverage loadDemangle w (Some s))) = loads w.
Proof.
  intros Hpass Hneeds.
  rewrite (loadDetailedCoverage_returns loadDemangle w s (fun name => name) Hpass)
    by (rewrite Hneeds; discriminate).
  unfold world_after. rewrite Hneeds. eexists. repeat split.
  cbn. now apply no_need_no_calls.
Qed.

Lemma no_mangled_name_no_load_witness :
  exists fr,
    snd (loadDetailedCoverage failing_loader fresh_world (Some plain_section))
    = Returned fr
    /\ calls fr = []
    /\ demangle (fst (loadDetailedCoverage failing_loader fresh_world
                        (Some plain_section)))
       = demangle fresh_world
    /\ loads (fst (loadDetailedCoverage failing_loader fresh_world
                     (Some plain_section)))
       = loads fresh_world.
Proof.
  apply (no_mangled_name_no_load failing_loader fresh_world plain_section);
    reflexivity.
Defined.

(** X10.  Once the function is in the cache, a call awaits nothing and loads
    nothing: it returns the records with the names demangled by that
    function, whatever [loadDemangle] would now give, and the cache keeps
    the function. *)
Theorem cached_function_is_reused
    (loadDemangle : nat -> js_error + demangler) (w : world)
    (s : SectionSummary.t) (f : demangler) :
  demangle w = SlotFunction f ->
  branches_pass (prototype_executed w)
    (Summary.details (SectionSummary.branches s)) = true ->
  snd (loadDetailedCoverage loadDemangle w (Some s))
  = Returned
      (mkFrame
         (List.map (expected_statement (Summary.details (SectionSummary.branches s)))
            (Summary.details (SectionSummary.lines s))
          ++ declarations f (Summary.details (SectionSummary.functions s)))
         (demangled f (Summary.details (SectionSummary.functions s))))
  /\ demangle (fst (loadDetailedCoverage loadDemangle w (Some s)))
     = SlotFunction f
  /\ loads (fst (loadDetailedCoverage loadDemangle w (Some s))) = loads w.
Proof.
  intros Hslot Hpass.
  rewrite (loadDetailedCoverage_returns loadDemangle w s f Hpass)
    by (intros _; unfold resolves; now rewrite Hslot).
  unfold world_after. rewrite Hslot.
  now destruct (needs_demangler (Summary.details (SectionSummary.functions s))).
Qed.

Lemma cached_function_is_reused_witness :
  snd (loadDetailedCoverage failing_loader
         (mkWorld (SlotFunction scenario_demangler) 1 false)
         (Some scenario_section))
  = Returned
      (mkFrame
         (List.map
            (expected_statement
               (Summary.details (SectionSummary.branches scenario_section)))
            (Summary.details (SectionSummary.lines scenario_section))
          ++ declarations scenario_demangler
               (Summary.details (SectionSummary.functions scenario_section)))
         (demangled scenario_demangler
            (Summary.details (SectionSummary.functions scenario_section))))
  /\ demangle (fst (loadDetailedCoverage failing_loader
                      (mkWorld (SlotFunction scenario_demangler) 1 false)
                      (Some scenario_section)))
     = SlotFunction scenario_demangler
  /\ loads (fst (loadDetailedCoverage failing_loader
                   (mkWorld (SlotFunction scenario_demangler) 1 false)
                   (Some scenario_section)))
     = loads (mkWorld (SlotFunction scenario_demangler) 1 false).
Proof.
  apply (cached_function_is_reused failing_loader
           (mkWorld (SlotFunction scenario_demangler) 1 false)
           scenario_section scenario_demangler);
    reflexivity.
Defined.

(** X11.  A new coverage profile starts with an empty cache: whatever the
    cache of the profile before held (a rejected promise, a function), the
    first call through the new profile that needs the demangler calls
    [loadDemangle] once more, and returns the names demangled by the
    function of that load. *)
Theorem new_profile_loads_again
    (loadDemangle : nat -> js_error + demangler) (w : world)
    (s : SectionSummary.t) (f : demangler) :
  loadDemangle (loads w) = inr f ->
  needs_demangler (Summary.details (SectionSummary.functions s)) = true ->
  branches_pass (prototype_executed w)
    (Summary.details (SectionSummary.branches s)) = true ->
  snd (loadDetailedCoverage loadDemangle (createCoverageProfile w) (Some s))
  = Returned
      (mkFrame
         (List.map (expected_statement (Summary.details (SectionSummary.branches s)))
            (Summary.details (SectionSummary.lines s))
          ++ declarations f (Summary.details (SectionSummary.functions s)))
         (demangled f (Summary.details (SectionSummary.functions s))))
  /\ loads (fst (loadDetailedCoverage loadDemangle (createCoverageProfile w)
                   (Some s)))
     = S (loads w)
  /\ demangle (fst (loadDetailedCoverage loadDemangle (createCoverageProfile w)
                      (Some s)))
     = SlotFunction f.
Proof.
  intros Hload Hneeds Hpass.
  rewrite (loadDetailedCoverage_returns loadDemangle (createCoverageProfile w) s f)
    by (trivial; intros _; unfold resolves; cbn; now rewrite Hload).
  unfold world_after. rewrite Hneeds. now repeat split.
Qed.

Lemma new_profile_loads_again_witness :
  snd (loadDetailedCoverage flaky_loader
         (createCoverageProfile
            (fst (loadDetailedCoverage flaky_loader fresh_world
                    (Some scenario_section))))
         (Some scenario_section))
  = Returned
      (mkFrame
         (List.map
            (expected_statement
               (Summary.details (SectionSummary.branches scenario_section)))
            (Summary.details (SectionSummary.lines scenario_section))
          ++ declarations scenario_demangler
               (Summary.details (SectionSummary.functions scenario_section)))
         (demangled scenario_demangler
            (Summary.details (SectionSummary.functions scenario_section))))
  /\ loads (fst (loadDetailedCoverage flaky_loader
                   (createCoverageProfile
                      (fst (loadDetailedCoverage flaky_loader fresh_world
                              (Some scenario_section))))
                   (Some scenario_section)))
     = S (loads (fst (loadDetailedCoverage flaky_loader fresh_world
                        (Some scenario_section))))
  /\ demangle (fst (loadDetailedCoverage flaky_loader
                      (createCoverageProfile
                         (fst (loadDetailedCoverage flaky_loader fresh_world
                                 (Some scenario_section))))
                      (Some scenario_section)))
     = SlotFunction scenario_demangler.
Proof.
  apply (new_profile_loads_again flaky_loader
           (fst (loadDetailedCoverage flaky_loader fresh_world
                   (Some scenario_section)))
           scenario_section scenario_demangler);
    reflexivity.
Defined.

(* ================================================================== *)
(** * Calls that overlap, and calls after one another *)


(** X14.  A call that returns gives first the statement records, then the
    declaration records, nothing else and nothing in between: as many
    records as there are line entries and function entries with a name. *)
Theorem statements_then_declarations
    (loadDemangle : nat -> js_error + demangler) (w : world)
    (s : SectionSummary.t) (f : demangler) :
  branches_pass (prototype_executed w)
    (Summary.details (SectionSummary.branches s)) = true ->
  (needs_demangler (Summary.details (SectionSummary.functions s)) = true ->
   resolves loadDemangle w = Some f) ->
  exists fr,
    snd (loadDetailedCoverage loadDemangle w (Some s)) = Returned fr
    /\ details fr
       = List.filter is_statement (details fr)
         ++ List.filter is_declaration (details fr)
    /\ length (details fr)
       = (length (Summary.details (SectionSummary.lines s))
          + length (List.filter
                      (fun fn => negb (String.eqb (FunctionEntry.name fn) ""))
                      (Summary.details (SectionSummary.functions s))))%nat.
Proof.
  intros Hpass Hres.
  rewrite (loadDetailedCoverage_returns loadDemangle w s f Hpass Hres).
  eexists. split; [reflexivity|]. cbn [details snd]. split.
  - now rewrite statements_of_output, declarations_of_output.
  - rewrite length_app, length_map. unfold declarations. rewrite length_map.
    do 2 f_equal. apply filter_ext. intros fn. unfold nonempty.
    now destruct (FunctionEntry.name fn).
Qed.

Lemma statements_then_declarations_witness :
  exists fr,
    snd (loadDetailedCoverage scenario_loader fresh_world (Some scenario_section))
    = Returned fr
    /\ details fr
       = List.filter is_statement (details fr)
         ++ List.filter is_declaration (details fr)
    /\ length (details fr)
       = (length (Summary.details (SectionSummary.lines scenario_section))
          + length (List.filter
                      (fun fn => negb (String.eqb (FunctionEntry.name fn) ""))
                      (Summary.details
                         (SectionSummary.functions scenario_section))))%nat.
Proof.
  apply (statements_then_declarations scenario_loader fresh_world
           scenario_section scenario_demangler).
  - reflexivity.
  - intros _. reflexivity.
Defined.

(* ================================================================== *)
(** * What a branch record can do to later calls *)

(** The body of the branch loop, case by case. *)
Lemma merge_branch_cases (polluted : bool) (o : object) (b : BranchEntry.t) :
  merge_branch polluted o b
  = match own_property o (BranchEntry.branch b) with
    | Some c =>
        (polluted,
         inr (set o (BranchEntry.branch b) (add_executed c (BranchEntry.hit b))))
    | None =>
        if String.eqb (BranchEntry.branch b) "__proto__" then (true, inr o)
        else if existsb (String.eqb (BranchEntry.branch b))
                  object_prototype_functions
        then (polluted, inr o)
        else if String.eqb (BranchEntry.branch b) "executed" && polluted
        then (polluted, inl TypeError)
        else (polluted,
              inr (set o (BranchEntry.branch b)
                     (add_executed (new_branch b) (BranchEntry.hit b))))
    end.
Proof.
  unfold merge_branch, get.
  destruct (own_property o (BranchEntry.branch b)) as [c|] eqn:Ho.
  - now rewrite Ho.
  - destruct (String.eqb (BranchEntry.branch b) "__proto__"); [now rewrite Ho|].
    destruct (existsb (String.eqb (BranchEntry.branch b))
                object_prototype_functions); [now rewrite Ho|].
    destruct (String.eqb (BranchEntry.branch b) "executed" && polluted);
      [now rewrite Ho|].
    now rewrite own_property_set_eq, set_set.
Qed.

(** No object of the map has an own property [k]. *)
Lemma no_own_insert (k : string) (m : gmap positive object) (line : positive)
    (o : object) :
  (forall l, own_property (default [] (m !! l)) k = None) ->
  own_property o k = None ->
  forall l, own_property (default [] (<[line := o]> m !! l)) k = None.
Proof.
  intros Hm Ho l. destruct (Pos.eq_dec line l) as [<-|Hne].
  - now rewrite lookup_insert_eq.
  - rewrite lookup_insert_ne by assumption. apply Hm.
Qed.

Lemma branches_loop_polluted (bs : list BranchEntry.t) :
  forall m, fst (branches_loop true m bs) = true.
Proof.
  induction bs as [|b bs IH]; intros m; [reflexivity|].
  cbn [branches_loop].
  destruct (merge_branch true (default [] (m !! BranchEntry.line b)) b)
    as [p [e|o]] eqn:Hmerge;
    rewrite (merge_branch_pollution_grows _ _ _ _ _ Hmerge eq_refl);
    [reflexivity | apply IH].
Qed.

(** A record with the identifier [__proto__] leaves [Object.prototype]
    with an [executed]. *)
Lemma branches_loop_proto (bs : list BranchEntry.t) :
  forall polluted m,
  (forall l, own_property (default [] (m !! l)) "__proto__" = None) ->
  has_identifier "__proto__" bs = true ->
  fst (branches_loop polluted m bs) = true.
Proof.
  induction bs as [|b bs IH]; intros polluted m Hm Hhas; [discriminate|].
  cbn [branches_loop]. cbn [has_identifier existsb] in Hhas.
  rewrite merge_branch_cases.
  destruct (String.eqb_spec (BranchEntry.branch b) "__proto__") as [Hproto|Hproto].
  - rewrite Hproto, Hm. apply branches_loop_polluted.
  - cbn [orb] in Hhas.
    destruct (own_property (default [] (m !! BranchEntry.line b))
                (BranchEntry.branch b)) as [c|].
    + apply IH; [|exact Hhas]. apply no_own_insert; [assumption|].
      now rewrite own_property_set_ne.
    + destruct (existsb (String.eqb (BranchEntry.branch b))
                  object_prototype_functions).
      * apply IH; [|exact Hhas]. now apply no_own_insert.
      * destruct (String.eqb (BranchEntry.branch b) "executed" && polluted) eqn:Hex.
        -- apply andb_true_iff in Hex. now destruct Hex as [_ ->].
        -- apply IH; [|exact Hhas]. apply no_own_insert; [assumption|].
           now rewrite own_property_set_ne.
Qed.

(** Once [Object.prototype] has an [executed], a record with the identifier
    [executed] stops the loop with a TypeError. *)
Lemma branches_loop_executed (bs : list BranchEntry.t) :
  forall m,
  (forall l, own_property (default [] (m !! l)) "executed" = None) ->
  has_identifier "executed" bs = true ->
  branches_loop true m bs = (true, inl TypeError).
Proof.
  induction bs as [|b bs IH]; intros m Hm Hhas; [discriminate|].
  cbn [branches_loop]. cbn [has_identifier existsb] in Hhas.
  rewrite merge_branch_cases.
  destruct (String.eqb (BranchEntry.branch b) "executed") eqn:Hex.
  - apply String.eqb_eq in Hex. rewrite Hex, Hm. reflexivity.
  - cbn [orb andb] in *. apply String.eqb_neq in Hex.
    destruct (own_property (default [] (m !! BranchEntry.line b))
                (BranchEntry.branch b)) as [c|].
    + apply IH; [|exact Hhas]. apply no_own_insert; [assumption|].
      now rewrite own_property_set_ne.
    + destruct (String.eqb (BranchEntry.branch b) "__proto__");
        [apply IH; [now apply no_own_insert | exact Hhas]|].
      destruct (existsb (String.eqb (BranchEntry.branch b))
                  object_prototype_functions);
        [apply IH; [now apply no_own_insert | exact Hhas]|].
      apply IH; [|exact Hhas]. apply no_own_insert; [assumption|].
      now rewrite own_property_set_ne.
Qed.

Lemma functions_loop_pollution (fns : list FunctionEntry.t) :
  forall w fr,
  prototype_executed (fst (functions_loop w fr fns)) = prototype_executed w.
Proof.
  induction fns as [|fn fns IH]; intros w fr; cbn [functions_loop];
    [reflexivity|].
  destruct (String.length (FunctionEntry.name fn) =? 0)%nat; [apply IH|].
  destruct (regex_mangled (FunctionEntry.name fn)); [|apply IH].
  destruct (demangle w); [reflexivity | reflexivity | apply IH].
Qed.

Lemma call_pollution (loadDemangle : nat -> js_error + demangler) (w : world)
    (s : SectionSummary.t) :
  prototype_executed (fst (loadDetailedCoverage loadDemangle w (Some s)))
  = fst (branches_loop (prototype_executed w) ∅
           (Summary.details (SectionSummary.branches s))).
Proof.
  unfold loadDetailedCoverage, start.
  destruct (branches_loop (prototype_executed w) ∅
              (Summary.details (SectionSummary.branches s)))
    as [polluted [e|m]]; [reflexivity|].
  cbn [fst].
  match goal with
  | |- context [functions_loop ?w0 ?fr ?fns] =>
      pose proof (functions_loop_pollution fns w0 fr) as Hloop;
      destruct (functions_loop w0 fr fns) as [w1 t1]
  end.
  cbn [fst prototype_executed] in Hloop. destruct t1 as [p fr fn rest|fr|e];
    cbn [resume]; trivial.
  destruct (loadDemangle p); [assumption|].
  now rewrite functions_loop_pollution.
Qed.

(** X13.  A section with the branch identifier [__proto__] spoils the calls
    that follow it: after a call on such a section, a call on any section
    with the branch identifier [executed] throws a TypeError and returns no
    records. *)
Theorem proto_identifier_breaks_later_calls
    (loadDemangle : nat -> js_error + demangler) (w : world)
    (s1 s2 : SectionSummary.t) :
  has_identifier "__proto__" (Summary.details (SectionSummary.branches s1))
  = true ->
  has_identifier "executed" (Summary.details (SectionSummary.branches s2))
  = true ->
  snd (loadDetailedCoverage loadDemangle
         (fst (loadDetailedCoverage loadDemangle w (Some s1))) (Some s2))
  = Thrown TypeError.
Proof.
  intros Hproto Hexecuted.
  pose proof (call_pollution loadDemangle w s1) as Hafter.
  rewrite branches_loop_proto in Hafter by (trivial; intros l; now rewrite lookup_empty).
  unfold loadDetailedCoverage at 1. unfold start. rewrite Hafter.
  rewrite branches_loop_executed by (trivial; intros l; now rewrite lookup_empty).
  reflexivity.
Qed.

Lemma proto_identifier_breaks_later_calls_witness :
  snd (loadDetailedCoverage scenario_loader
         (fst (loadDetailedCoverage scenario_loader fresh_world
                 (Some (SectionSummary.mk "/ws/b/src/x.c"
                          (Summary.mk 0 0 [])
                          (Summary.mk 1 1 [BranchEntry.mk 10 "__proto__" 1])
                          (Summary.mk 0 0 [])))))
         (Some executed_section))
  = Thrown TypeError.
Proof.
  apply (proto_identifier_breaks_later_calls scenario_loader fresh_world
           (SectionSummary.mk "/ws/b/src/x.c" (Summary.mk 0 0 [])
              (Summary.mk 1 1 [BranchEntry.mk 10 "__proto__" 1])
              (Summary.mk 0 0 []))
           executed_section);
    reflexivity.
Defined.

(* ================================================================== *)
(** * The configuration *)

(** X15.  A setting that gives the globs already in force changes nothing:
    told the same setting again, or a string where the one-element array of
    that string is in force (or the other way round), the extension creates
    no watcher and does not refresh. *)
Theorem same_globs_change_nothing (JSON_stringify : Configuration -> string)
    (st : extension) (s s' : setting) :
  setting_globs s' = setting_globs s ->
  refreshConfiguration JSON_stringify (refreshConfiguration JSON_stringify st s) s'
  = refreshConfiguration JSON_stringify st s.
Proof.
  intros Hsame. unfold refreshConfiguration at 2.
  destruct (String.eqb (JSON_stringify (mkConfiguration (setting_globs s)))
              (JSON_stringify (configuration st))) eqn:Hcurrent.
  - unfold refreshConfiguration. now rewrite Hsame, Hcurrent.
  - unfold refreshConfiguration. cbn [configuration].
    now rewrite Hsame, String.eqb_refl, Hcurrent.
Qed.

Lemma same_globs_change_nothing_witness :
  refreshConfiguration example_stringify
    (refreshConfiguration example_stringify activated (SettingString "**/*.info"))
    (SettingArray ["**/*.info"])
  = refreshConfiguration example_stringify activated (SettingString "**/*.info").
Proof.
  apply (same_globs_change_nothing example_stringify activated
           (SettingString "**/*.info") (SettingArray ["**/*.info"])).
  reflexivity.
Defined.

Lemma refreshConfiguration_step (JSON_stringify : Configuration -> string)
    (st : extension) (s : setting) :
  exists added,
    watchers (refreshConfiguration JSON_stringify st s) = watchers st ++ added
    /\ (refreshes st <= refreshes (refreshConfiguration JSON_stringify st s)
        <= S (refreshes st))%nat.
Proof.
  unfold refreshConfiguration. destruct (String.eqb _ _).
  - exists []. rewrite app_nil_r. split; [reflexivity | lia].
  - exists (setting_globs s). cbn. split; [reflexivity | lia].
Qed.

(** X16.  Watchers are only ever added: through any sequence of settings,
    the watchers there were are all still there, in place, with the new
    ones after them, and [refreshTests] has been called at most once per
    setting. *)
Theorem watchers_are_never_disposed (JSON_stringify : Configuration -> string)
    (settings : list setting) (st : extension) :
  exists added,
    watchers (fold_left (refreshConfiguration JSON_stringify) settings st)
    = watchers st ++ added
    /\ (refreshes st
        <= refreshes (fold_left (refreshConfiguration JSON_stringify) settings st)
        <= refreshes st + length settings)%nat.
Proof.
  revert st. induction settings as [|s settings IH]; intros st.
  - exists []. cbn. rewrite app_nil_r. split; [reflexivity | lia].
  - cbn [fold_left length].
    destruct (IH (refreshConfiguration JSON_stringify st s)) as (added & -> & Hr).
    destruct (refreshConfiguration_step JSON_stringify st s)
      as (added1 & -> & Hr1).
    exists (added1 ++ added). rewrite app_assoc. split; [reflexivity | lia].
Qed.

(** A glob that stays in the configuration when another is added is
    watched twice. *)
Example glob_watched_twice :
  watchers
    (fold_left (refreshConfiguration example_stringify)
       [SettingUndefined; SettingString "**/*.info";
        SettingArray ["**/*.info"]; SettingArray ["**/*.info"; "lcov/*"]]
       activated)
  = ["**/*.info"; "**/*.info"; "lcov/*"]
  /\ refreshes
       (fold_left (refreshConfiguration example_stringify)
          [SettingUndefined; SettingString "**/*.info";
           SettingArray ["**/*.info"]; SettingArray ["**/*.info"; "lcov/*"]]
          activated)
     = 2%nat.
Proof. split; reflexivity. Qed.

(* ================================================================== *)
(** * The items of a refresh *)

Lemma sort_insert_permutation (x : string) (sorted : list string) :
  Permutation (sort_insert x sorted) (x :: sorted).
Proof.
  induction sorted as [|y sorted IH]; cbn; [apply Permutation_refl|].
  destruct (String.leb x y); [apply Permutation_refl|].
  eapply Permutation_trans; [apply perm_skip, IH | apply perm_swap].
Qed.

Lemma Array_sort_permutation (files : list string) :
  Permutation (Array_sort files) files.
Proof.
  induction files as [|x files IH]; cbn; [constructor|].
  eapply Permutation_trans; [apply sort_insert_permutation | now apply perm_skip].
Qed.

Lemma sort_insert_sorted (x : string) (sorted : list string) :
  Sorted (fun a b => String.leb a b = true) sorted ->
  Sorted (fun a b => String.leb a b = true) (sort_insert x sorted).
Proof.
  induction sorted as [|y sorted IH]; cbn; intros Hs.
  - repeat constructor.
  - destruct (String.leb x y) eqn:Hxy.
    + constructor; [assumption | now constructor].
    + apply Sorted_inv in Hs. destruct Hs as [Hs Hhd].
      constructor; [now apply IH|].
      assert (Hyx : String.leb y x = true).
      { destruct (String.leb_total x y); congruence. }
      destruct sorted as [|z sorted]; cbn.
      * now constructor.
      * destruct (String.leb x z); constructor; [assumption|].
        now inversion Hhd.
Qed.

Lemma Array_sort_sorted (files : list string) :
  Sorted (fun a b => String.leb a b = true) (Array_sort files).
Proof.
  induction files as [|x files IH]; cbn; [constructor|].
  now apply sort_insert_sorted.
Qed.

Lemma createTestItems_uris (next : nat) (files : list string) :
  List.map item_uri (createTestItems next files) = files.
Proof.
  revert next. induction files as [|file files IH]; intros next; cbn;
    [reflexivity|]. now rewrite IH.
Qed.

Lemma createTestItems_refs (next : nat) (files : list string) :
  List.map ref (createTestItems next files) = seq next (length files).
Proof.
  revert next. induction files as [|file files IH]; intros next; cbn;
    [reflexivity|]. now rewrite IH.
Qed.

(** Adding new items, all different, to a set they are not in. *)
Lemma fold_Set_add_new (added items : list TestItem) :
  List.NoDup (List.map ref added) ->
  (forall r, In r (List.map ref added) -> ~ In r (List.map ref items)) ->
  fold_left Set_add added items = items ++ added.
Proof.
  revert items. induction added as [|item added IH]; intros items Hnd Hnew; cbn.
  - now rewrite app_nil_r.
  - cbn in Hnd. inversion Hnd as [|? ? Hnotin Hnd']; subst.
    assert (Hadd : Set_add items item = items ++ [item]).
    { unfold Set_add.
      destruct (existsb (same_item item) items) eqn:Hin; [|reflexivity].
      apply existsb_same_item in Hin. exfalso.
      apply (Hnew (ref item)); [now left | assumption]. }
    rewrite Hadd, IH, <- app_assoc; [reflexivity | assumption |].
    intros r Hr Hin. rewrite map_app, in_app_iff in Hin.
    destruct Hin as [Hin|[<-|[]]].
    + apply (Hnew r); [now right | assumption].
    + contradiction.
Qed.

(** X17.  The run a refresh starts works on exactly the files found: when
    no file is found twice, the items handed to the batch are one new item
    per file found for the globs of the configuration, in ascending order of
    the uri strings. *)
Theorem refresh_runs_found_files_in_order (findFiles : string -> list string)
    (globs : list string) (next : nat) :
  List.NoDup (concat (List.map findFiles globs)) ->
  Permutation (List.map item_uri (refresh_run_items findFiles globs next))
              (concat (List.map findFiles globs))
  /\ Sorted (fun a b => String.leb a b = true)
       (List.map item_uri (refresh_run_items findFiles globs next))
  /\ List.NoDup (List.map item_uri (refresh_run_items findFiles globs next))
  /\ List.map ref (refresh_run_items findFiles globs next)
     = seq next (length (concat (List.map findFiles globs))).
Proof.
  intros Hfound.
  assert (Hitems : refresh_run_items findFiles globs next
                   = createTestItems next (lcov_files findFiles globs)).
  { unfold refresh_run_items, run_items. rewrite new_Set_empty. unfold new_Set.
    change (default [] (Some (createTestItems next (lcov_files findFiles globs))))
      with (createTestItems next (lcov_files findFiles globs)).
    change (default [] (Some (@nil TestItem))) with (@nil TestItem).
    cbn [fold_left].
    destruct (createTestItems next (lcov_files findFiles globs))
      as [|item items] eqn:Hcreated; [reflexivity|].
    rewrite (fold_Set_add_new (item :: items) []); [reflexivity | |].
    - rewrite <- Hcreated, createTestItems_refs. apply seq_NoDup.
    - intros r _ []. }
  rewrite Hitems, createTestItems_uris, createTestItems_refs.
  unfold lcov_files. split; [|split; [|split]].
  - apply Array_sort_permutation.
  - apply Array_sort_sorted.
  - eapply Permutation_NoDup; [|exact Hfound].
    apply Permutation_sym, Array_sort_permutation.
  - f_equal. apply Permutation_length, Array_sort_permutation.
Qed.

Lemma refresh_runs_found_files_in_order_witness :
  Permutation
    (List.map item_uri
       (refresh_run_items example_findFiles ["**/*.info"; "lcov/*"] 7))
    (concat (List.map example_findFiles ["**/*.info"; "lcov/*"]))
  /\ Sorted (fun a b => String.leb a b = true)
       (List.map item_uri
          (refresh_run_items example_findFiles ["**/*.info"; "lcov/*"] 7))
  /\ List.NoDup
       (List.map item_uri
          (refresh_run_items example_findFiles ["**/*.info"; "lcov/*"] 7))
  /\ List.map ref (refresh_run_items example_findFiles ["**/*.info"; "lcov/*"] 7)
     = seq 7 (length (concat (List.map example_findFiles
                                ["**/*.info"; "lcov/*"]))).
Proof.
  apply (refresh_runs_found_files_in_order example_findFiles
           ["**/*.info"; "lcov/*"] 7).
  repeat constructor; cbn; intuition discriminate.
Defined.

Example refresh_example :
  refresh_run_items example_findFiles ["**/*.info"; "lcov/*"] 7
  = [ mkTestItem 7 "file:///ws/a/cov.info";
      mkTestItem 8 "file:///ws/a/lcov/x";
      mkTestItem 9 "file:///ws/b/cov.info" ].
Proof. reflexivity. Qed.

(* ================================================================== *)
(** * A rejected load and the calls that wait for it *)

(** X18.  When the one load of a session is rejected, every call suspended
    on it throws that rejection when it is taken up, and no call of the
    session has had a name demangled. *)
Theorem rejected_load_reaches_every_waiting_call
    (loadDemangle : nat -> js_error + demangler) (polluted : bool)
    (s : session) (e : js_error) :
  rtc (step loadDemangle) (initial polluted) s ->
  loadDemangle 0%nat = inl e ->
  (forall i p fr fn rest,
      threads s !! i = Some (Awaiting p fr fn rest) ->
      threads (take_up loadDemangle s i) !! i = Some (Thrown e))
  /\ (forall t, In t (threads s) -> calls_of t = []).
Proof.
  intros Hreach Hload.
  destruct (reachable_ok loadDemangle polluted s Hreach) as [_ Hts]. split.
  - intros i p fr fn rest Hi.
    destruct (Forall_lookup_1 _ _ _ _ Hts Hi) as [[-> _] _].
    unfold take_up. rewrite Hi. cbn [resume]. rewrite Hload. cbn [threads].
    apply list_lookup_insert_eq. eapply lookup_lt_Some. exact Hi.
  - intros t Hin. rewrite List.Forall_forall in Hts.
    destruct (Hts t Hin) as [_ Hcalls].
    destruct (calls_of t) as [|c cs]; [reflexivity|].
    inversion Hcalls as [|? ? (f & Hf & _) _]. congruence.
Qed.

Lemma rejected_load_reaches_every_waiting_call_witness :
  (forall i p fr fn rest,
      threads (call (call (initial false) (Some scenario_section))
                 (Some orphan_section)) !! i
      = Some (Awaiting p fr fn rest) ->
      threads (take_up failing_loader
                 (call (call (initial false) (Some scenario_section))
                    (Some orphan_section)) i) !! i
      = Some (Thrown (Reason "Cannot find module")))
  /\ (forall t,
        In t (threads (call (call (initial false) (Some scenario_section))
                         (Some orphan_section))) ->
        calls_of t = []).
Proof.
  apply (rejected_load_reaches_every_waiting_call failing_loader false
           (call (call (initial false) (Some scenario_section))
              (Some orphan_section))
           (Reason "Cannot find module")).
  - eapply rtc_l; [apply step_call|].
    eapply rtc_l; [apply step_call|]. apply rtc_refl.
  - reflexivity.
Defined.

(* ================================================================== *)
(** * The batch as its tasks finish *)

Lemma first_rejection_app (results more : list task_result) :
  first_rejection (results ++ more)
  = match first_rejection results with
    | Some e => Some e
    | None => first_rejection more
    end.
Proof.
  induction results as [|r results IH]; cbn; [reflexivity|].
  now destruct (rejection r).
Qed.

(** X19.  Once the batch is rejected it stays rejected, with the failure of
    the task that failed first, whatever the tasks that finish later do;
    those tasks are not stopped, and what they publish is added after what
    was published before. *)
Theorem first_failure_settles_the_batch
    (parseLcov : string -> js_error + list SectionSummary.t)
    (workspaceFolders : list vscode.WorkspaceFolder)
    (items : list report) (completion later : list nat) (e : js_error) :
  settled (collectRunData parseLcov workspaceFolders items completion)
  = Rejected e ->
  settled (collectRunData parseLcov workspaceFolders items (completion ++ later))
  = Rejected e
  /\ ended (collectRunData parseLcov workspaceFolders items (completion ++ later))
     = false
  /\ addCoverage
       (collectRunData parseLcov workspaceFolders items (completion ++ later))
     = addCoverage (collectRunData parseLcov workspaceFolders items completion)
       ++ addCoverage (collectRunData parseLcov workspaceFolders items later).
Proof.
  cbn [settled ended addCoverage collectRunData]. unfold promise_all, finished.
  rewrite !flat_map_app, first_rejection_app.
  destruct (first_rejection
              (flat_map (fun i => match nth_error items i with
                                  | Some item => [task parseLcov workspaceFolders item]
                                  | None => []
                                  end) completion)) as [e'|].
  - intros [= ->]. now repeat split.
  - destruct (all_finished items completion); discriminate.
Qed.

Lemma first_failure_settles_the_batch_witness :
  settled (collectRunData scenario_4_parser scenario_4_folders scenario_4_items
             ([1] ++ [0])%nat)
  = Rejected (Reason "unexpected end of input")
  /\ ended (collectRunData scenario_4_parser scenario_4_folders scenario_4_items
              ([1] ++ [0])%nat)
     = false
  /\ addCoverage
       (collectRunData scenario_4_parser scenario_4_folders scenario_4_items
          ([1] ++ [0])%nat)
     = addCoverage (collectRunData scenario_4_parser scenario_4_folders
                      scenario_4_items [1]%nat)
       ++ addCoverage (collectRunData scenario_4_parser scenario_4_folders
                         scenario_4_items [0]%nat).
Proof.
  apply (first_failure_settles_the_batch scenario_4_parser scenario_4_folders
           scenario_4_items [1]%nat [0]%nat (Reason "unexpected end of input")).
  reflexivity.
Defined.

(* ================================================================== *)
(** * A call among other calls *)






(* ================================================================== *)
(** * The branch records a line record carries *)

(** Where no identifier of the line is an inherited name, the values of the
    line's object are the Branch Group of the line. *)
Lemma branch_group_is_spec_group (bs : list BranchEntry.t) (line : positive) :
  (forall b, In b bs -> BranchEntry.line b = line ->
     inherited (BranchEntry.branch b) = false) ->
  Permutation (Object_values (branch_group bs line)) (spec_branch_group bs line).
Proof.
  intros Hplain.
  destruct (branch_group_merged bs line Hplain) as (Hkeys & Hplaced & Hsum).
  eapply Permutation_trans; [apply Object_values_permutation|].
  unfold spec_branch_group. rewrite <- Hkeys, map_map.
  erewrite map_ext_in; [apply Permutation_refl|].
  intros [k c] Hin. cbn [fst snd].
  destruct (Hplaced k c Hin) as [Hlabel Hloc].
  rewrite <- Hsum, <- rebase, <- Hloc. unfold executed_of.
  rewrite (in_own_property _ k c); [| |assumption].
  - subst k. now destruct c.
  - rewrite Hkeys. apply distinct_NoDup.
Qed.

(** C7.  Each line record is to carry the Branch Group of its line.  On the
    section whose line 10 has the branch identifiers [constructor] and [0],
    the call returns one line record for the one line entry, at position 9
    and with the entry's hit count, but the record carries one branch
    record, that of [0], where the Branch Group of line 10 has two: lines
    132 and 137 find the function every object inherits under the name
    [constructor] and make no record for it (the defect of C1). *)
Theorem line_record_misses_inherited_identifier :
  snd (loadDetailedCoverage scenario_loader fresh_world (Some constructor_section))
  = Returned
      (mkFrame
         [ vscode.StatementCoverage 3 (vscode.mkPosition 9 0)
             [ vscode.mkBranchCoverage 2 (vscode.mkPosition 9 0) "0" ] ]
         [])
  /\ spec_branch_group
       (Summary.details (SectionSummary.branches constructor_section)) 10
     = [ vscode.mkBranchCoverage 1 (vscode.mkPosition 9 0) "constructor";
         vscode.mkBranchCoverage 2 (vscode.mkPosition 9 0) "0" ].
Proof. split; reflexivity. Qed.

(* ================================================================== *)
(** * A branch record without a line record that is not dropped *)

(** C10.  A branch record whose line has no line record is to contribute
    nothing to the output.  On the section with the line entry of line 10
    and the branch records (11, [__proto__]) and (10, [executed]), the first
    record has no line record, and yet the call throws a TypeError with it
    and returns the line record of line 10 without it: line 137, run for
    the record of line 11, leaves an [executed] on [Object.prototype], which
    the record of line 10 then finds in place of a record of its own (the
    defect of C1).  Alone, such a record leaves the output as it is but
    [Object.prototype] changed for the calls that follow. *)
Theorem orphan_record_changes_the_result :
  has_line (Summary.details (SectionSummary.lines orphan_proto_section))
    (BranchEntry.mk 11 "__proto__" 1) = false
  /\ snd (loadDetailedCoverage scenario_loader fresh_world
            (Some orphan_proto_section))
     = Thrown TypeError
  /\ snd (loadDetailedCoverage scenario_loader fresh_world
            (Some (without_orphans orphan_proto_section)))
     = Returned
         (mkFrame
            [ vscode.StatementCoverage 3 (vscode.mkPosition 9 0)
                [ vscode.mkBranchCoverage 1 (vscode.mkPosition 9 0) "executed" ] ]
            [])
  /\ prototype_executed
       (fst (loadDetailedCoverage scenario_loader fresh_world
               (Some (SectionSummary.mk "/ws/b/src/x.c"
                        (Summary.mk 1 1 [LineEntry.mk 10 3])
                        (Summary.mk 1 1 [BranchEntry.mk 11 "__proto__" 1])
                        (Summary.mk 0 0 [])))))
     = true.
Proof. repeat split; reflexivity. Qed.
